(** * 100ms sample backend: the handlers of [app.js]

    A shallow embedding of the handlers of [/session-analytics-by-room],
    [/session-list-by-room], [/list-rooms], [/create-room],
    [/rooms/:room_id/active] and [/auth-token], with the JavaScript built-ins
    they rest on ([Math.round], [Number.prototype.toFixed], [Array.prototype.push],
    [Object.values], object spread, [+], property access on an object and its
    prototype) written out from ECMAScript, and the [moment] calls written
    out from that library.

    JavaScript numbers are IEEE-754 binary64 values: they are modelled by the
    Standard Library's [spec_float] at precision 53, whose operations round to
    nearest, ties to even, as the engine's do.

    The bodies of the upstream have the shape the handlers expect: [data] is
    absent or an array, sessions, peers and rooms are objects, a [user_id] and
    a cursor are strings, a timestamp is an instant or [null], the [id] of a
    room has a text (it is no object with a [toString] of its own).  An
    awaited call that fails rejects with an [Error].  What the handlers do on
    a field of another type is outside the model.

    A [user_id] is any string, and the name of a peer any JSON value.  The
    object in which the analytics handler accumulates is modelled with its
    own properties and with its prototype chain: a [user_id] that names a
    property every object inherits ([constructor], [toString], ...) reads
    that property, and the [user_id] [__proto__] reads and sets the
    prototype. *)

From Stdlib Require Import ZArith NArith List String Ascii Bool Lia SpecFloat.
From Stdlib Require Import DecimalString DecimalN DecimalPos Sorted Permutation.
Import ListNotations.

Set Warnings "-register-all".

Local Open Scope string_scope.
Local Open Scope Z_scope.

(** ** Numbers *)

Definition prec : Z := 53.
Definition emax : Z := 1024.

Definition number : Type := spec_float.

Definition NaN : number := S754_nan.

(** The double nearest to an integer (exact below 2^53). *)
Definition Z2num (z : Z) : number := binary_normalize prec emax z 0 false.

Definition num_add (x y : number) : number := SFadd prec emax x y.
Definition num_sub (x y : number) : number := SFsub prec emax x y.
Definition num_mul (x y : number) : number := SFmul prec emax x y.
Definition num_div (x y : number) : number := SFdiv prec emax x y.

(** A finite double [(-1)^s * m * 2^e] as a signed numerator: its value is
    [signed s m * 2^e]. *)
Definition signed (s : bool) (m : positive) : Z := cond_Zopp s (Zpos m).

(** [floor (y + 1/2)] for [y = signed s m * 2^e] with [e < 0]. *)
Definition round_half_up (s : bool) (m : positive) (e : Z) : Z :=
  (2 * signed s m + 2 ^ (- e)) / 2 ^ (- e + 1).

(** [Math.round]: NaN, the infinities, the zeros and integral values are
    returned as they are; otherwise the integer closest to [x], the one closer
    to +infinity in a tie; a result of zero keeps the sign of [x]. *)
Definition Math_round (x : number) : number :=
  match x with
  | S754_finite s m e =>
      if 0 <=? e then x
      else
        let n := round_half_up s m e in
        if n =? 0 then S754_zero s else Z2num n
  | _ => x
  end.

(** ** Strings of digits *)

Definition decimal (n : N) : string := NilEmpty.string_of_uint (N.to_uint n).

Fixpoint zeros (k : nat) : string :=
  match k with
  | O => EmptyString
  | S k' => String "0" (zeros k')
  end.

(** Steps 8-10 of [Number.prototype.toFixed] for [f = 2]: the digits of [n],
    padded on the left with zeros to three characters at least, with a point
    before the last two. *)
Definition fixed_digits (n : N) : string :=
  let m := decimal n in
  let k := String.length m in
  let m := if (k <=? 2)%nat then zeros (3 - k) ++ m else m in
  let k := String.length m in
  substring 0 (k - 2) m ++ "." ++ substring (k - 2) 2 m.

(** The integer [n] for which [n / 100 - a] is closest to zero, the larger one
    in a tie, where [a = m * 2^e] is the absolute value of the number. *)
Definition hundredths (m : positive) (e : Z) : Z :=
  if 0 <=? e then 100 * Zpos m * 2 ^ e
  else (200 * Zpos m + 2 ^ (- e)) / 2 ^ (- e + 1).

(** [10^21 <= m * 2^e]. *)
Definition at_least_1e21 (m : positive) (e : Z) : bool :=
  if 0 <=? e then 10 ^ 21 <=? Zpos m * 2 ^ e
  else 10 ^ 21 * 2 ^ (- e) <=? Zpos m.

(** The value of the positive double [m * 2^e] when it is an integer below
    2^53. *)
Definition integral (m : positive) (e : Z) : option N :=
  if 0 <=? e then
    if Zpos m * 2 ^ e <? 2 ^ 53 then Some (Z.to_N (Zpos m * 2 ^ e)) else None
  else if (Zpos m mod 2 ^ (- e) =? 0) && (Zpos m / 2 ^ (- e) <? 2 ^ 53) then
    Some (Z.to_N (Zpos m / 2 ^ (- e)))
  else None.

(** ** Values and objects

    A JSON value as the upstream sends it and as [res.json] returns it.  An
    object is the list of its own properties in the order they were created;
    a property that is absent reads as [None] ([undefined]). *)

Inductive value : Type :=
| VNull
| VBool (b : bool)
| VNum (x : number)
| VStr (s : string)
| VArr (items : list value)
| VObj (fields : list (string * value)).

Definition obj (A : Type) : Type := list (string * A).

Fixpoint obj_get {A : Type} (o : obj A) (k : string) : option A :=
  match o with
  | [] => None
  | (k', v) :: o' => if String.eqb k' k then Some v else obj_get o' k
  end.

(** [o[k] = v]: an existing property keeps its place, a new one is created
    last. *)
Fixpoint obj_set {A : Type} (o : obj A) (k : string) (v : A) : obj A :=
  match o with
  | [] => [(k, v)]
  | (k', v') :: o' =>
      if String.eqb k' k then (k', v) :: o' else (k', v') :: obj_set o' k v
  end.

(** A property key is an array index when it is the canonical decimal form of
    an integer from 0 to 2^32 - 2. *)
Definition array_index (k : string) : option N :=
  match NilEmpty.uint_of_string k with
  | Some d =>
      let n := N.of_uint d in
      if (String.eqb (decimal n) k && (n <=? 4294967294)%N)%bool then Some n
      else None
  | None => None
  end.

Fixpoint insert_by_index {B : Type} (i : N) (b : B) (l : list (N * B)) : list (N * B) :=
  match l with
  | [] => [(i, b)]
  | (j, b') :: l' =>
      if (i <=? j)%N then (i, b) :: l else (j, b') :: insert_by_index i b l'
  end.

(** The properties whose key is an array index, in ascending order of index. *)
Fixpoint index_entries {A : Type} (o : obj A) : list (N * (string * A)) :=
  match o with
  | [] => []
  | (k, v) :: o' =>
      match array_index k with
      | Some i => insert_by_index i (k, v) (index_entries o')
      | None => index_entries o'
      end
  end.

Definition not_index (k : string) : bool :=
  match array_index k with
  | None => true
  | Some _ => false
  end.

Definition string_entries {A : Type} (o : obj A) : obj A :=
  filter (fun kv => not_index (fst kv)) o.

(** The own properties in the order every enumeration visits them: array
    indices first, ascending, then the other keys in creation order. *)
Definition own_entries {A : Type} (o : obj A) : obj A :=
  (map snd (index_entries o) ++ string_entries o)%list.

Definition Object_keys {A : Type} (o : obj A) : list string := map fst (own_entries o).
Definition Object_values {A : Type} (o : obj A) : list A := map snd (own_entries o).

(** [{...o}]: a fresh object that receives the own properties of [o] one by
    one in enumeration order; as no key of an object repeats, that leaves
    them in that order. *)
Definition spread {A : Type} (o : obj A) : obj A := own_entries o.

(** ** Upstream calls and responses *)

(** The outcome of an awaited [apiService] call. *)
Inductive promise (A : Type) : Type :=
| Resolved (body : A)
| Rejected (message : string).
Arguments Resolved {A} body.
Arguments Rejected {A} message.

(** What the handler sends: [res.json(body)], with status 200, or
    [res.status(code).send(text)]. *)
Inductive response (A : Type) : Type :=
| Json (body : A)
| Send (status : nat) (text : string).
Arguments Json {A} body.
Arguments Send {A} status text.

Definition internal_error {A : Type} : response A := Send 500 "Internal Server Error".

(** ** Time: what the handler asks of [moment]

    A timestamp of the upstream is an instant (milliseconds since the epoch)
    or [null]; a timestamp that is absent, which [moment] reads as the current
    time, is outside the model.  [moment(null)] is an invalid moment, as is an
    instant outside the range of [Date]; [diff] of an invalid moment is [NaN],
    and otherwise the difference of the two time values; a duration built
    from [NaN] is invalid and is [NaN] in every unit, and otherwise
    [asMinutes] is [days * 1440 + milliseconds / 6e4] with no days. *)

Inductive timestamp : Type :=
| Instant (ms : Z)
| Null.

Module moment.

Inductive t : Type :=
| Valid (ms : Z)
| Invalid.

Definition max_time : Z := 8640000000000000.

Definition parse (ts : timestamp) : t :=
  match ts with
  | Instant ms => if Z.abs ms <=? max_time then Valid ms else Invalid
  | Null => Invalid
  end.

Definition diff (a b : t) : number :=
  match a, b with
  | Valid x, Valid y => num_sub (Z2num x) (Z2num y)
  | _, _ => NaN
  end.

Definition asMinutes (milliseconds : number) : number :=
  match milliseconds with
  | S754_nan => NaN
  | _ => num_add (num_mul (Z2num 0) (Z2num 1440))
                 (num_div milliseconds (Z2num 60000))
  end.

End moment.

(** ** Sessions and peers *)

Module Peer.
Record t : Type := make
  { name : option value;
    user_id : string;
    joined_at : timestamp;
    left_at : timestamp }.
End Peer.

Module Session.
Record t : Type := make
  { id : option value;
    created_at : timestamp;
    updated_at : timestamp;
    peers : option (obj Peer.t) }.
End Session.

(** The body of [GET /sessions]: [data] (absent, or the sessions) and the
    cursor [last]. *)
Module SessionList.
Record t : Type := make
  { data : option (list Session.t);
    last : option string }.
End SessionList.

(** A number or a string: what [+] yields on those. *)
Inductive numstr : Type :=
| Num (x : number)
| Str (s : string).

(** An entry of [detailsByUser]. *)
Module Summary.
Record t : Type := make
  { name : option value;
    user_id : string;
    duration : numstr }.
End Summary.

(** The accumulator of the handler's [reduce], an object that starts as [{}]:
    its own properties, in the order of their creation, each a summary; and
    its prototype, which is [Object.prototype] ([None]) until an assignment
    to [__proto__] puts a summary between the two. *)
Record accumulator : Type := make_accumulator
  { own : obj Summary.t;
    prototype : option Summary.t }.

(** What reading a property of the accumulator gives: [undefined], a summary,
    [Object.prototype] itself, a built-in function, or the value of a field
    of a summary. *)
Inductive property_value : Type :=
| Undefined
| SummaryObject (entry : Summary.t)
| ObjectPrototype
| BuiltinFunction (name : string)
| JsonValue (v : value).

Module Analytics.
Record t : Type := make
  { user_duration_list : list Summary.t;
    session_duration : string;
    total_peer_duration : string }.
End Analytics.

(** What the analytics handler writes to the console. *)
Inductive console : Type :=
| log_session (s : Session.t)
| log_result (result : list Summary.t)
| log_line (text : string)
| log_error.

(** The query of [GET /sessions]. *)
Module Filters.
Record t : Type := make
  { room_id : option value;
    limit : Z;
    start : option string }.
End Filters.

(** The body of [GET /rooms]: [data] (absent or [null], or the rooms, each an
    object) and [rest], the other fields of the envelope. *)
Module RoomList.
Record t : Type := make
  { data : option (list (obj value));
    rest : obj value }.
End RoomList.

(** The body of [GET /room-codes/room/<id>]. *)
Module Codes.
Record t : Type := make
  { data : option (list value) }.
End Codes.

(** ** Notions the properties are stated with *)

Definition keys {A : Type} (o : obj A) : list string := map fst o.

Definition has_key (k : string) (ks : list string) : bool :=
  existsb (fun k' => String.eqb k' k) ks.

(** A list of identifiers with every repetition after the first removed. *)
Fixpoint first_occurrences (l : list string) : list string :=
  match l with
  | [] => []
  | k :: l' => k :: filter (fun k' => negb (String.eqb k' k)) (first_occurrences l')
  end.

(** The keys that are array indices, in ascending order of index. *)
Fixpoint index_keys (ks : list string) : list (N * string) :=
  match ks with
  | [] => []
  | k :: ks' =>
      match array_index k with
      | Some i => insert_by_index i k (index_keys ks')
      | None => index_keys ks'
      end
  end.

(** The order in which keys created in the order [ks] are enumerated. *)
Definition enumeration_order (ks : list string) : list string :=
  (map snd (index_keys ks) ++ filter not_index ks)%list.

(** The integer nearest to [y = signed s m * 2^e], [e < 0], the one farther
    from zero in a tie; [tie] tells whether [y] is halfway between two
    integers. *)
Definition half_away (s : bool) (m : positive) (e : Z) : Z :=
  cond_Zopp s ((2 * Zpos m + 2 ^ (- e)) / 2 ^ (- e + 1)).

Definition tie (m : positive) (e : Z) : bool :=
  (2 * Zpos m + 2 ^ (- e)) mod 2 ^ (- e + 1) =? 0.

(** [Math.round] and the rounding to two decimals as the specification words
    them: half away from zero. *)
Definition round_half_away (x : number) : number :=
  match x with
  | S754_finite s m e =>
      if 0 <=? e then x
      else
        let n := half_away s m e in
        if n =? 0 then S754_zero s else Z2num n
  | _ => x
  end.

Definition round2_half_away (duration : number) : number :=
  num_div (round_half_away (num_mul duration (Z2num 100))) (Z2num 100).

(** A text of one digit or more, a point and exactly two digits, with or
    without a minus sign before it. *)
Definition is_digit (c : ascii) : bool :=
  ((48 <=? nat_of_ascii c) && (nat_of_ascii c <=? 57))%nat.

Fixpoint all_digits (s : string) : bool :=
  match s with
  | EmptyString => true
  | String c s' => is_digit c && all_digits s'
  end.

Definition point_and_two_digits (s : string) : bool :=
  match s with
  | String p (String d1 (String d2 EmptyString)) =>
      Ascii.eqb p "." && is_digit d1 && is_digit d2
  | _ => false
  end.

Fixpoint unsigned_two_decimals (s : string) : bool :=
  match s with
  | EmptyString => false
  | String c s' => is_digit c && (point_and_two_digits s' || unsigned_two_decimals s')
  end.

Definition two_decimals (s : string) : bool :=
  unsigned_two_decimals s
  || match s with
     | String c s' => Ascii.eqb c "-" && unsigned_two_decimals s'
     | EmptyString => false
     end.

(** The numbers [toFixed] writes in fixed notation: finite and below 10^21 in
    absolute value. *)
Definition fixed_range (x : number) : bool :=
  match x with
  | S754_zero _ => true
  | S754_finite _ m e => negb (at_least_1e21 m e)
  | _ => false
  end.

(** ** Calls and replies of the other handlers *)

(** What a failed call of [apiService] throws: an error, with the response of
    the upstream (its status and its body) when there was one. *)
Record api_error : Type := make_error
  { error_message : string;
    error_response : option (nat * option value) }.

Inductive outcome (A : Type) : Type :=
| Succeeded (body : A)
| Failed (err : api_error).
Arguments Succeeded {A} body.
Arguments Failed {A} err.

(** [res.status(code).json(body)] *)
Record reply : Type := make_reply
  { reply_status : nat;
    reply_body : option value }.

(** A call of the token service, which returns or throws. *)
Inductive call (A : Type) : Type :=
| Returns (a : A)
| Throws (message : string).
Arguments Returns {A} a.
Arguments Throws {A} message.

(** What becomes of the request in the handler: a response, or an exception
    that leaves the handler. *)
Inductive handled (A : Type) : Type :=
| Sent (r : response A)
| Uncaught (error : string).
Arguments Sent {A} r.
Arguments Uncaught {A} error.

Record token_body : Type := make_token_body
  { token : string;
    msg : string;
    success : bool }.

Section Backend.

(** [Number::toString] writes a finite number that is no integer, or an
    integer of 2^53 or more, with the fewest digits that read back as the same
    double.  That search is a built-in of the runtime and is taken as given:
    [shortest_digits m e] is the text of the positive double [m * 2^e]. *)
Variable shortest_digits : positive -> Z -> string.

(** [Number::toString]: [NaN], [0] for both zeros, a minus sign before the
    text of the absolute value, [Infinity]; an integer below 2^53 is its
    decimal digits. *)
Definition Number_toString (x : number) : string :=
  match x with
  | S754_nan => "NaN"
  | S754_zero _ => "0"
  | S754_infinity s => (if s then "-" else "") ++ "Infinity"
  | S754_finite s m e =>
      (if s then "-" else "") ++
      match integral m e with
      | Some n => decimal n
      | None => shortest_digits m e
      end
  end.

(** [x.toFixed(2)]: the text of [x] when [x] is not finite or is 10^21 or more
    in absolute value; otherwise the sign and the digits of the nearest
    number of hundredths. *)
Definition toFixed2 (x : number) : string :=
  match x with
  | S754_finite s m e =>
      if at_least_1e21 m e then Number_toString x
      else (if s then "-" else "") ++ fixed_digits (Z.to_N (hundredths m e))
  | S754_zero _ => fixed_digits 0
  | _ => Number_toString x
  end.

(** [a + b] on numbers and strings. *)
Definition js_plus (a b : numstr) : numstr :=
  match a, b with
  | Num x, Num y => Num (num_add x y)
  | Num x, Str t => Str (Number_toString x ++ t)
  | Str s, Num y => Str (s ++ Number_toString y)
  | Str s, Str t => Str (s ++ t)
  end.

(** ** Values in expressions *)

(** Truthiness of a value. *)
Definition truthy_value (v : value) : bool :=
  match v with
  | VNull => false
  | VBool b => b
  | VNum (S754_zero _) | VNum S754_nan => false
  | VNum _ => true
  | VStr s => negb (String.eqb s "")
  | VArr _ | VObj _ => true
  end.

(** The text a template literal gives a value; [undefined] for an absent one. *)
Fixpoint ToString (v : value) : string :=
  match v with
  | VNull => "null"
  | VBool true => "true"
  | VBool false => "false"
  | VNum x => Number_toString x
  | VStr s => s
  | VArr items =>
      (fix join (l : list value) : string :=
         match l with
         | [] => ""
         | [e] => match e with VNull => "" | _ => ToString e end
         | e :: l' => match e with VNull => "" | _ => ToString e end ++ "," ++ join l'
         end) items
  | VObj _ => "[object Object]"
  end.

Definition template (v : option value) : string :=
  match v with
  | Some v => ToString v
  | None => "undefined"
  end.

(** Where [+] and the array's [join] turn an object into a text, they call
    its [toString]; a property [toString] of the object's own, which in a
    JSON value is no function, hides the inherited one, and the conversion
    throws a [TypeError]. *)
Fixpoint ToPrimitive_throws (v : value) : bool :=
  match v with
  | VObj fields =>
      match obj_get fields "toString" with
      | Some _ => true
      | None => false
      end
  | VArr items =>
      (fix some (l : list value) : bool :=
         match l with
         | [] => false
         | e :: l' => ToPrimitive_throws e || some l'
         end) items
  | _ => false
  end.

(** ** [GET /session-analytics-by-room] *)

(** [moment.duration(moment(peer.left_at).diff(moment(peer.joined_at))).asMinutes()] *)
Definition peer_minutes (peer : Peer.t) : number :=
  moment.asMinutes
    (moment.diff (moment.parse (Peer.left_at peer)) (moment.parse (Peer.joined_at peer))).

(** [Math.round(duration * 100) / 100] *)
Definition round2 (duration : number) : number :=
  num_div (Math_round (num_mul duration (Z2num 100))) (Z2num 100).

Definition roundedDuration (peer : Peer.t) : number := round2 (peer_minutes peer).

(** The methods every object inherits from [Object.prototype], each with the
    name of the function it holds. *)
Definition Object_prototype_methods : obj string :=
  [("constructor", "Object");
   ("__defineGetter__", "__defineGetter__");
   ("__defineSetter__", "__defineSetter__");
   ("hasOwnProperty", "hasOwnProperty");
   ("__lookupGetter__", "__lookupGetter__");
   ("__lookupSetter__", "__lookupSetter__");
   ("isPrototypeOf", "isPrototypeOf");
   ("propertyIsEnumerable", "propertyIsEnumerable");
   ("toString", "toString");
   ("valueOf", "valueOf");
   ("toLocaleString", "toLocaleString")].

(** The text of a built-in function, as Node's engine writes it. *)
Definition native_code (name : string) : string :=
  "function " ++ name ++ "() { [native code] }".

(** A property of a summary [{ name, user_id, duration }]; [None] when the
    summary has no such property of its own. *)
Definition summary_get (entry : Summary.t) (k : string) : option property_value :=
  if String.eqb k "name" then
    Some match Summary.name entry with
         | Some v => JsonValue v
         | None => Undefined
         end
  else if String.eqb k "user_id" then Some (JsonValue (VStr (Summary.user_id entry)))
  else if String.eqb k "duration" then
    Some (JsonValue match Summary.duration entry with
                    | Num x => VNum x
                    | Str t => VStr t
                    end)
  else None.

(** A property read from [Object.prototype] on behalf of the accumulator:
    [__proto__] is an accessor, whose getter returns the prototype of the
    accumulator; the methods are functions; there is nothing else. *)
Definition Object_prototype_get (acc : accumulator) (k : string) : property_value :=
  if String.eqb k "__proto__" then
    match prototype acc with
    | Some entry => SummaryObject entry
    | None => ObjectPrototype
    end
  else
    match obj_get Object_prototype_methods k with
    | Some name => BuiltinFunction name
    | None => Undefined
    end.

(** [acc[k]]: the own property, or else the property the accumulator inherits
    from its prototype chain. *)
Definition acc_get (acc : accumulator) (k : string) : property_value :=
  match obj_get (own acc) k with
  | Some entry => SummaryObject entry
  | None =>
      match prototype acc with
      | Some entry =>
          match summary_get entry k with
          | Some v => v
          | None => Object_prototype_get acc k
          end
      | None => Object_prototype_get acc k
      end
  end.

(** [acc[k] = entry]: the setter of [__proto__] makes [entry] the prototype
    and creates no property; under any other key the own property is written,
    an existing one in its place and a new one last. *)
Definition acc_set (acc : accumulator) (k : string) (entry : Summary.t) : accumulator :=
  if String.eqb k "__proto__" then make_accumulator (own acc) (Some entry)
  else make_accumulator (obj_set (own acc) k entry) (prototype acc).

(** [(acc[peer.user_id] || 0) + roundedDuration]: what was read, when it is
    falsy, gives [0 + roundedDuration]; [true] and a number are added to it;
    a text is put before the number's text, and so is the text of an object,
    of a function or of an array.  [None] is the [TypeError] of a value that
    has no text. *)
Definition or_zero_plus (read : property_value) (rounded : number) : option numstr :=
  match read with
  | Undefined => Some (Num (num_add (Z2num 0) rounded))
  | SummaryObject _ | ObjectPrototype =>
      Some (Str ("[object Object]" ++ Number_toString rounded))
  | BuiltinFunction name => Some (Str (native_code name ++ Number_toString rounded))
  | JsonValue v =>
      if truthy_value v then
        match v with
        | VBool _ => Some (Num (num_add (Z2num 1) rounded))
        | VNum x => Some (Num (num_add x rounded))
        | _ =>
            if ToPrimitive_throws v then None
            else Some (Str (ToString v ++ Number_toString rounded))
        end
      else Some (Num (num_add (Z2num 0) rounded))
  end.

(** The callback of [peers.reduce]; [None] when it throws. *)
Definition details_step (acc : accumulator) (peer : Peer.t) : option accumulator :=
  match or_zero_plus (acc_get acc (Peer.user_id peer)) (roundedDuration peer) with
  | Some duration =>
      Some (acc_set acc (Peer.user_id peer)
              (Summary.make (Peer.name peer) (Peer.user_id peer) duration))
  | None => None
  end.

(** [peers.reduce(callback, acc)] *)
Fixpoint reduce (peers : list Peer.t) (acc : accumulator) : option accumulator :=
  match peers with
  | [] => Some acc
  | peer :: peers' =>
      match details_step acc peer with
      | Some acc' => reduce peers' acc'
      | None => None
      end
  end.

Definition detailsByUser (peers : list Peer.t) : option accumulator :=
  reduce peers (make_accumulator [] None).

(** [Object.values(detailsByUser)]: the own properties only. *)
Definition result_of (detailsByUser : accumulator) : list Summary.t :=
  Object_values (own detailsByUser).

(** [result.reduce((a, b) => a + b.duration, 0)] *)
Definition total_of (result : list Summary.t) : numstr :=
  fold_left (fun a b => js_plus a (Summary.duration b)) result (Num (Z2num 0)).

(** [moment.duration(moment(updated_at).diff(moment(created_at))).asMinutes()] *)
Definition session_minutes (s : Session.t) : number :=
  moment.asMinutes
    (moment.diff (moment.parse (Session.updated_at s)) (moment.parse (Session.created_at s))).

(** The handler, from the outcome of [apiService.get("/sessions", ...)] to the
    response and the console.  A [TypeError] (a property of [undefined], a
    missing method, a value with no text) lands in the handler's [catch]. *)
Definition session_analytics (sessionListData : promise SessionList.t)
    : response Analytics.t * list console :=
  match sessionListData with
  | Rejected _ => (internal_error, [log_error])
  | Resolved body =>
      match SessionList.data body with
      | None => (internal_error, [log_error])
      | Some [] => (Send 404 "No session found for this room", [])
      | Some (sessionData :: _) =>
          match Session.peers sessionData with
          | None => (internal_error, [log_session sessionData; log_error])
          | Some peer_map =>
              let peers := Object_values peer_map in
              match detailsByUser peers with
              | None => (internal_error, [log_session sessionData; log_error])
              | Some acc =>
                  let result := result_of acc in
                  match total_of result with
                  | Str _ =>
                      (internal_error,
                       [log_session sessionData; log_result result; log_error])
                  | Num total =>
                      let totalDuration := toFixed2 total in
                      let sessionDuration := toFixed2 (session_minutes sessionData) in
                      (Json (Analytics.make result sessionDuration totalDuration),
                       [log_session sessionData; log_result result;
                        log_line ("Total duration for all peers: " ++ totalDuration
                                  ++ " minutes");
                        log_line ("Session duration is: " ++ sessionDuration ++ " minutes")])
                  end
              end
          end
      end
  end.

(** ** [GET /session-list-by-room] *)

(** The variable [allSessions]: the array of pages it starts as, or the number
    that [allSessions = allSessions.push(...)] leaves in it. *)
Inductive sessions_var : Type :=
| Pages (pages : list (list Session.t))
| Length (n : nat).

(** [allSessions.push(page)]: the array with the page as its new last element,
    and the new length, which is what the call returns; a number has no
    [push], and the call throws. *)
Definition push (allSessions : sessions_var) (page : list Session.t)
    : option (list (list Session.t) * nat) :=
  match allSessions with
  | Pages pages => Some ((pages ++ [page])%list, S (List.length pages))
  | Length _ => None
  end.

Definition truthy (s : option string) : bool :=
  match s with
  | Some (String _ _) => true
  | _ => false
  end.

(** The loop, with the requests it has issued so far; [fuel] bounds the
    iterations, [None] meaning that it ran out. *)
Fixpoint walk (get : nat -> Filters.t -> promise SessionList.t) (room_id : option value)
    (fuel : nat) (issued : list Filters.t) (allSessions : sessions_var)
    (last : option string) : option (list Filters.t * response sessions_var) :=
  match fuel with
  | O => None
  | S fuel' =>
      let filters :=
        Filters.make room_id 20 (if truthy last then last else None) in
      let request := List.length issued in
      let issued := (issued ++ [filters])%list in
      match get request filters with
      | Rejected _ => Some (issued, internal_error)
      | Resolved someSessionListData =>
          match SessionList.data someSessionListData with
          | None | Some [] => Some (issued, Json allSessions)
          | Some page =>
              match push allSessions page with
              | None => Some (issued, internal_error)
              | Some (_, n) =>
                  if (List.length page <? 20)%nat then Some (issued, Json (Length n))
                  else walk get room_id fuel' issued (Length n)
                            (SessionList.last someSessionListData)
              end
          end
      end
  end.

Definition session_list (get : nat -> Filters.t -> promise SessionList.t)
    (room_id : option value) (fuel : nat)
    : option (list Filters.t * response sessions_var) :=
  walk get room_id fuel [] (Pages []) None.

(** ** [GET /list-rooms]

    The handler in the revision of [app.js] that fetches the guest codes of
    each room. *)

(** [code.role === "guest"]; reading a property of [null] throws. *)
Definition is_guest (code : value) : option bool :=
  match code with
  | VNull => None
  | VObj fields =>
      match obj_get fields "role" with
      | Some (VStr role) => Some (String.eqb role "guest")
      | _ => Some false
      end
  | _ => Some false
  end.

(** [codes.filter((code) => code.role === "guest")] *)
Fixpoint filter_guest (codes : list value) : option (list value) :=
  match codes with
  | [] => Some []
  | code :: codes' =>
      match is_guest code with
      | None => None
      | Some keep =>
          match filter_guest codes' with
          | None => None
          | Some rest => Some (if keep then code :: rest else rest)
          end
      end
  end.

Definition with_guest_codes (room : obj value) (guestCodes : list value) : obj value :=
  obj_set (spread room) "guest_room_codes" (VArr guestCodes).

Definition with_error (room : obj value) : obj value :=
  obj_set (obj_set (spread room) "guest_room_codes" (VArr []))
    "error_fetching_codes" (VStr "Failed to retrieve room codes").

(** [`/room-codes/room/${room.id}`] *)
Definition codes_path (room : obj value) : string :=
  "/room-codes/room/" ++ template (obj_get room "id").

(** The callback of [roomListData.data.map]: the [i]-th sub-request, and the
    room it gives. *)
Definition enrich (get : nat -> string -> promise (option Codes.t)) (i : nat)
    (room : obj value) : obj value :=
  match get i (codes_path room) with
  | Resolved roomCodesResponse =>
      match roomCodesResponse with
      | Some (Codes.make (Some codes)) =>
          match filter_guest codes with
          | Some guestCodes => with_guest_codes room guestCodes
          | None => with_error room
          end
      | _ => with_guest_codes room []
      end
  | Rejected _ => with_error room
  end.

(** [Promise.all(rooms.map(...))]: the sub-requests are issued in the order of
    the rooms, and the results stand in that order whatever the order in which
    they settle. *)
Fixpoint enrich_all (get : nat -> string -> promise (option Codes.t)) (i : nat)
    (rooms : list (obj value)) : list (obj value) :=
  match rooms with
  | [] => []
  | room :: rooms' => enrich get i room :: enrich_all get (S i) rooms'
  end.

Definition list_rooms (roomListData : promise (option RoomList.t))
    (get : nat -> string -> promise (option Codes.t)) : response (option RoomList.t) :=
  match roomListData with
  | Rejected _ => internal_error
  | Resolved None => Json None
  | Resolved (Some body) =>
      match RoomList.data body with
      | Some (room :: rooms) =>
          let roomsWithGuestCodes := enrich_all get 0 (room :: rooms) in
          Json (Some (RoomList.make (Some roomsWithGuestCodes) (spread (RoomList.rest body))))
      | _ => Json (Some body)
      end
  end.

(** ** [POST /create-room] *)

(** [v.k] for a value that is not [null] and a key that is neither an index
    nor [length]: the property of an object, and [undefined] on anything
    else. *)
Definition prop (v : value) (k : string) : option value :=
  match v with
  | VObj fields => obj_get fields k
  | _ => None
  end.

Fixpoint obj_remove {A : Type} (o : obj A) (k : string) : obj A :=
  match o with
  | [] => []
  | (k', v) :: o' =>
      if String.eqb k' k then obj_remove o' k else (k', v) :: obj_remove o' k
  end.

(** An object literal as the JSON that is sent: a field whose value is
    [undefined] is left out. *)
Definition defined_field (body : obj value) (k : string) : obj value :=
  match obj_get body k with
  | Some v => [(k, v)]
  | None => []
  end.

(** [{ name: req.body.name, description: ..., template_id: ..., region: ... }] *)
Definition room_payload (body : obj value) : obj value :=
  (defined_field body "name" ++ defined_field body "description"
   ++ defined_field body "template_id" ++ defined_field body "region")%list.

(** [roomData && roomData.id], when it is truthy. *)
Definition created_id (roomData : option value) : option value :=
  match roomData with
  | Some v =>
      if truthy_value v then
        match prop v "id" with
        | Some roomId => if truthy_value roomId then Some roomId else None
        | None => None
        end
      else None
  | None => None
  end.

(** [roomData.room_codes = codes], as [res.json] then writes [roomData]: a
    property that holds [undefined] is not written; an assignment to a
    property of a value that is no object has no effect. *)
Definition assign_room_codes (roomData : value) (codes : option value) : value :=
  match roomData with
  | VObj fields =>
      VObj (match codes with
            | Some v => obj_set fields "room_codes" v
            | None => obj_remove fields "room_codes"
            end)
  | _ => roomData
  end.

(** The handler, with the calls of [apiService.post] it makes, each a path and
    a payload.  A failure of the second call, and a [TypeError] on its
    response, land in the inner [catch], which logs and goes on. *)
Definition create_room (post : nat -> string -> obj value -> promise (option value))
    (body : obj value) : list (string * obj value) * response (option value) :=
  let payload := room_payload body in
  match post 0%nat "/rooms" payload with
  | Rejected _ => ([("/rooms", payload)], internal_error)
  | Resolved roomData =>
      match created_id roomData with
      | Some roomId =>
          let roomCodePath := "/room-codes/room/" ++ ToString roomId in
          let calls := [("/rooms", payload); (roomCodePath, [])] in
          match post 1%nat roomCodePath [] with
          | Resolved (Some VNull) | Resolved None | Rejected _ => (calls, Json roomData)
          | Resolved (Some roomCodesResponse) =>
              (calls,
               Json (option_map
                       (fun r => assign_room_codes r (prop roomCodesResponse "data"))
                       roomData))
          end
      | None => ([("/rooms", payload)], Json roomData)
      end
  end.

(** ** [POST /rooms/:room_id/active] *)

Definition invalid_enabled : reply :=
  make_reply 400
    (Some (VObj [("error",
                  VStr "Invalid 'enabled' status in request body. Must be true or false.")])).

Definition room_active (post : string -> obj value -> outcome (option value))
    (room_id : string) (body : obj value) : list (string * obj value) * reply :=
  match obj_get body "enabled" with
  | Some (VBool enabled) =>
      let updatePayload := [("enabled", VBool enabled)] in
      let path := "/rooms/" ++ room_id in
      match post path updatePayload with
      | Succeeded updatedRoomData => ([(path, updatePayload)], make_reply 200 updatedRoomData)
      | Failed err =>
          ([(path, updatePayload)],
           match error_response err with
           | Some (status, data) => make_reply status data
           | None =>
               make_reply 500 (Some (VObj [("message", VStr "Internal Server Error")]))
           end)
      end
  | _ => ([], invalid_enabled)
  end.

(** ** [POST /auth-token] *)

(** The handler, with what it writes to the console.  The management token is
    logged before the [try]; the [catch] binds [error] and logs [err], a name
    that is bound nowhere, so the [catch] throws before it sends. *)
Definition auth_token (getManagementToken : call string)
    (getAuthToken : option value -> option value -> option value -> call string)
    (body : obj value) : list string * handled token_body :=
  match getManagementToken with
  | Throws message => ([], Uncaught message)
  | Returns managementToken =>
      match getAuthToken (obj_get body "room_id") (obj_get body "user_id")
                         (obj_get body "role") with
      | Returns t =>
          ([managementToken],
           Sent (Json (make_token_body t "Token generated successfully!" true)))
      | Throws _ => ([managementToken], Uncaught "ReferenceError: err is not defined")
      end
  end.

(** ** More notions for the properties *)

(** [code.role === "guest"] on a code that is not [null]. *)
Definition guest_role (code : value) : bool :=
  match code with
  | VObj fields =>
      match obj_get fields "role" with
      | Some (VStr role) => String.eqb role "guest"
      | _ => false
      end
  | _ => false
  end.

Definition is_null (v : value) : bool :=
  match v with
  | VNull => true
  | _ => false
  end.

(** The user_id whose assignment sets the prototype. *)
Definition is_proto (k : string) : bool := String.eqb k "__proto__".

(** The user_ids under which the reduce writes a property. *)
Definition own_ids (peers : list Peer.t) : list string :=
  filter (fun k => negb (is_proto k)) (map Peer.user_id peers).

(** A user_id that names a method of [Object.prototype]. *)
Definition inherited (k : string) : bool :=
  match obj_get Object_prototype_methods k with
  | Some _ => true
  | None => false
  end.

(** A user_id that names a field of a summary. *)
Definition summary_field (k : string) : bool :=
  String.eqb k "name" || String.eqb k "user_id" || String.eqb k "duration".

(** A name that [+] can turn into a text, or an absent one. *)
Definition printable_name (name : option value) : bool :=
  match name with
  | Some v => negb (ToPrimitive_throws v)
  | None => true
  end.

(** A user_id under which a new object reads [undefined]. *)
Definition plain_id (k : string) : bool := negb (is_proto k) && negb (inherited k).

(** The summary of a user with the one peer entry [peer]. *)
Definition summary_of (peer : Peer.t) : Summary.t :=
  Summary.make (Peer.name peer) (Peer.user_id peer)
    (Num (num_add (Z2num 0) (roundedDuration peer))).

(** The peers in the order in which their user_ids are enumerated. *)
Definition by_user_id (peers : list Peer.t) : list Peer.t :=
  Object_values (map (fun peer => (Peer.user_id peer, peer)) peers).

(** ** The walker's requests, for the statements about it *)

Definition first_request (room_id : option value) : Filters.t :=
  Filters.make room_id 20 None.

Definition next_request (room_id : option value) (body : SessionList.t) : Filters.t :=
  Filters.make room_id 20
    (if truthy (SessionList.last body) then SessionList.last body else None).

(** The number of items of a response, and whether it is a page of fewer than
    20 items (an empty or absent one included). *)
Definition page_items (r : promise SessionList.t) : nat :=
  match r with
  | Resolved body =>
      match SessionList.data body with
      | Some page => List.length page
      | None => O
      end
  | Rejected _ => O
  end.

Definition short_page (r : promise SessionList.t) : bool :=
  match r with
  | Resolved _ => (page_items r <? 20)%nat
  | Rejected _ => false
  end.

(** The responses to the requests [issued], the first of which is the [i]-th
    of the upstream. *)
Fixpoint responses (get : nat -> Filters.t -> promise SessionList.t) (i : nat)
    (issued : list Filters.t) : list (promise SessionList.t) :=
  match issued with
  | [] => []
  | filters :: issued' => get i filters :: responses get (S i) issued'
  end.

Definition totalItems (get : nat -> Filters.t -> promise SessionList.t)
    (issued : list Filters.t) : nat :=
  list_sum (map page_items (responses get O issued)).

(** What the enrichment leaves of a room: every field but [guest_room_codes]
    when the codes were fetched, and every field but [guest_room_codes] and
    [error_fetching_codes] when they were not. *)
Definition room_kept (room room' : obj value) : Prop :=
  ((exists guestCodes, room' = with_guest_codes room guestCodes)
   /\ forall k, k <> "guest_room_codes" -> obj_get room' k = obj_get room k)
  \/ (room' = with_error room
      /\ forall k, k <> "guest_room_codes" -> k <> "error_fetching_codes" ->
                   obj_get room' k = obj_get room k).

(** ** Inputs of the examples *)

(** One user in two peer entries, of 5.005 and of 2 minutes. *)
Definition reconnect_peers : obj Peer.t :=
  [("peer-a", Peer.make (Some (VStr "Ann")) "user-1" (Instant 0) (Instant 300300));
   ("peer-b", Peer.make (Some (VStr "Ann")) "user-1" (Instant 400000) (Instant 520000))].

Definition reconnect_session : Session.t :=
  Session.make (Some (VStr "session-1")) (Instant 0) (Instant 720000) (Some reconnect_peers).

(** A peer that left 300 ms before it joined: -0.005 minutes. *)
Definition early_peer : Peer.t :=
  Peer.make (Some (VStr "Bo")) "user-2" (Instant 300) (Instant 0).

(** Two users whose identifiers are numerals, the larger one first. *)
Definition numeral_peers : list Peer.t :=
  [Peer.make (Some (VStr "Cy")) "2" (Instant 0) (Instant 60000);
   Peer.make (Some (VStr "Di")) "1" (Instant 0) (Instant 120000)].

(** Two users with ordinary identifiers, 12 minutes each, in a session of 12
    minutes. *)
Definition plain_peers : obj Peer.t :=
  [("peer-a", Peer.make (Some (VStr "Ann")) "ann" (Instant 0) (Instant 720000));
   ("peer-b", Peer.make (Some (VStr "Bo")) "bo" (Instant 0) (Instant 720000))].

Definition plain_session : Session.t :=
  Session.make (Some (VStr "session-2")) (Instant 0) (Instant 720000) (Some plain_peers).

(** A session still open: [updated_at] is null, and so is the [left_at] of its
    one peer. *)
Definition open_session : Session.t :=
  Session.make (Some (VStr "session-3")) (Instant 0) Null
    (Some [("peer-a", Peer.make (Some (VStr "Ann")) "ann" (Instant 0) Null)]).

Definition sessions_body (sessions : list Session.t) : SessionList.t :=
  SessionList.make (Some sessions) None.

(** An upstream that serves pages of the given sizes, one per request, each
    with a cursor, and an absent page after them. *)
Definition a_session : Session.t := Session.make None (Instant 0) (Instant 0) None.

Definition paged (sizes : list nat) (i : nat) (filters : Filters.t) : promise SessionList.t :=
  match nth_error sizes i with
  | Some n => Resolved (SessionList.make (Some (repeat a_session n)) (Some "next"))
  | None => Resolved (SessionList.make None None)
  end.

(** Rooms, and sub-requests of which the one of index 1 is rejected. *)
Definition room_a : obj value := [("id", VStr "room-a"); ("name", VStr "Standup")].
Definition room_b : obj value := [("id", VStr "room-b"); ("enabled", VBool true)].
Definition room_c : obj value := [("id", VStr "room-c")].

(** A room that already has a field [guest_room_codes]. *)
Definition room_d : obj value := [("id", VStr "room-d"); ("guest_room_codes", VStr "kept")].

Definition rooms_body (rooms : list (obj value)) : RoomList.t :=
  RoomList.make (Some rooms) [("limit", VNum (Z2num 10)); ("last", VStr "room-c")].

Definition guest_code : value := VObj [("code", VStr "abc-defg-hij"); ("role", VStr "guest")].
Definition host_code : value := VObj [("code", VStr "klm-nopq-rst"); ("role", VStr "host")].

Definition all_codes (i : nat) (path : string) : promise (option Codes.t) :=
  Resolved (Some (Codes.make (Some [host_code; guest_code]))).

Definition second_fails (i : nat) (path : string) : promise (option Codes.t) :=
  if Nat.eqb i 1 then Rejected "Request failed with status code 503"
  else all_codes i path.

(** The body the analytics handler answers for [plain_session]. *)
Definition plain_body : Analytics.t :=
  Analytics.make
    [Summary.make (Some (VStr "Ann")) "ann" (Num (Z2num 12));
     Summary.make (Some (VStr "Bo")) "bo" (Num (Z2num 12))]
    "12.00" "24.00".

(** One peer whose user_id names a method every object inherits, of one
    minute. *)
Definition constructor_peers : obj Peer.t :=
  [("peer-a", Peer.make (Some (VStr "Eve")) "constructor" (Instant 0) (Instant 60000))].

Definition constructor_session : Session.t :=
  Session.make (Some (VStr "session-4")) (Instant 0) (Instant 60000) (Some constructor_peers).

(** Two peers of the user_id [__proto__], then a user of 12 minutes. *)
Definition proto_peers : obj Peer.t :=
  [("peer-a", Peer.make (Some (VStr "Eve")) "__proto__" (Instant 0) (Instant 60000));
   ("peer-b", Peer.make (Some (VStr "Eve")) "__proto__" (Instant 0) (Instant 120000));
   ("peer-c", Peer.make (Some (VStr "Ann")) "ann" (Instant 0) (Instant 720000))].

Definition proto_session : Session.t :=
  Session.make (Some (VStr "session-5")) (Instant 0) (Instant 720000) (Some proto_peers).

(** A peer of the user_id [__proto__] whose name is an object with a
    [toString] of its own, then a peer of the user_id [name]. *)
Definition nameless_peers : obj Peer.t :=
  [("peer-a", Peer.make (Some (VObj [("toString", VNull)])) "__proto__"
                (Instant 0) (Instant 60000));
   ("peer-b", Peer.make (Some (VStr "Bo")) "name" (Instant 0) (Instant 60000))].

Definition nameless_session : Session.t :=
  Session.make (Some (VStr "session-6")) (Instant 0) (Instant 60000) (Some nameless_peers).

(** An upstream that rejects every page request. *)
Definition unreachable_sessions (i : nat) (filters : Filters.t) : promise SessionList.t :=
  Rejected "connect ECONNREFUSED".

(** A request to create a room, with a field the handler does not forward. *)
Definition standup_request : obj value :=
  [("name", VStr "Standup"); ("region", VStr "eu"); ("enabled", VBool false)].

Definition created_room : obj value := [("id", VStr "room-e"); ("name", VStr "Standup")].

(** An upstream that creates the room and then its codes, and one that creates
    the room and fails on the codes. *)
Definition creating (i : nat) (path : string) (payload : obj value) : promise (option value) :=
  if Nat.eqb i 0 then Resolved (Some (VObj created_room))
  else Resolved (Some (VObj [("data", VArr [host_code; guest_code])])).

Definition creating_without_codes (i : nat) (path : string) (payload : obj value)
    : promise (option value) :=
  if Nat.eqb i 0 then Resolved (Some (VObj created_room))
  else Rejected "Request failed with status code 500".

(** An upstream that refuses to update a room, and requests to disable one. *)
Definition refusing (path : string) (payload : obj value) : outcome (option value) :=
  Failed (make_error "Request failed with status code 404"
            (Some (404%nat, Some (VObj [("message", VStr "room not found")])))).

Definition disable_request : obj value := [("enabled", VBool false)].
Definition disable_text_request : obj value := [("enabled", VStr "false")].

(** A token service that cannot sign. *)
Definition no_secret (room_id user_id role : option value) : call string :=
  Throws "secretOrPrivateKey must have a value".

(** For the examples, whose numbers are all integers below 2^53 or NaN, the
    search for the shortest digits is never reached. *)
Definition unreached (m : positive) (e : Z) : string := "".

(** ** Objects: reading after writing, and the order of enumeration *)

Lemma obj_get_set_same {A : Type} (o : obj A) (k : string) (v : A) :
  obj_get (obj_set o k v) k = Some v.
Proof.
  induction o as [|[k' v'] o IH]; simpl.
  - now rewrite String.eqb_refl.
  - destruct (String.eqb k' k) eqn:E; simpl; rewrite E; [reflexivity | exact IH].
Qed.

Lemma obj_get_set_other {A : Type} (o : obj A) (k k0 : string) (v : A) :
  k0 <> k -> obj_get (obj_set o k v) k0 = obj_get o k0.
Proof.
  intros Hne. induction o as [|[k' v'] o IH]; simpl.
  - destruct (String.eqb k k0) eqn:E; [|reflexivity].
    apply String.eqb_eq in E. congruence.
  - destruct (String.eqb k' k) eqn:E; simpl.
    + apply String.eqb_eq in E. subst k'.
      destruct (String.eqb k k0) eqn:E0; [|reflexivity].
      apply String.eqb_eq in E0. congruence.
    + now rewrite IH.
Qed.

Lemma keys_obj_set {A : Type} (o : obj A) (k : string) (v : A) :
  keys (obj_set o k v) = if has_key k (keys o) then keys o else (keys o ++ [k])%list.
Proof.
  unfold keys, has_key. induction o as [|[k' v'] o IH]; simpl; [reflexivity|].
  destruct (String.eqb k' k) eqn:E; simpl; [reflexivity|].
  rewrite IH. now destruct (existsb _ (map fst o)).
Qed.

Lemma has_key_get {A : Type} (o : obj A) (k : string) :
  has_key k (keys o) = match obj_get o k with Some _ => true | None => false end.
Proof.
  unfold keys, has_key. induction o as [|[k' v'] o IH]; simpl; [reflexivity|].
  now destruct (String.eqb k' k).
Qed.

Lemma insert_by_index_map {B C : Type} (f : B -> C) (i : N) (b : B) (l : list (N * B)) :
  map (fun jb => (fst jb, f (snd jb))) (insert_by_index i b l)
  = insert_by_index i (f b) (map (fun jb => (fst jb, f (snd jb))) l).
Proof.
  induction l as [|[j b'] l IH]; simpl; [reflexivity|].
  destruct (i <=? j)%N; simpl; [reflexivity | now rewrite IH].
Qed.

Lemma index_entries_keys {A : Type} (o : obj A) :
  map (fun jb => (fst jb, fst (snd jb))) (index_entries o) = index_keys (keys o).
Proof.
  induction o as [|[k v] o IH]; simpl; [reflexivity|].
  destruct (array_index k); [|exact IH].
  now rewrite (insert_by_index_map fst), IH.
Qed.

Lemma Object_keys_order {A : Type} (o : obj A) :
  Object_keys o = enumeration_order (keys o).
Proof.
  unfold Object_keys, own_entries, enumeration_order, string_entries.
  rewrite map_app. f_equal.
  - rewrite <- (index_entries_keys o), !map_map. reflexivity.
  - unfold keys. induction o as [|[k v] o IH]; simpl; [reflexivity|].
    destruct (not_index k); simpl; now rewrite IH.
Qed.

Lemma In_insert_by_index {B : Type} (i : N) (b : B) (l : list (N * B)) (x : N * B) :
  In x (insert_by_index i b l) -> x = (i, b) \/ In x l.
Proof.
  induction l as [|[j b'] l IH]; simpl.
  - intros [H|[]]; now left.
  - destruct (i <=? j)%N; simpl.
    + intros [H|H]; [now left | now right].
    + intros [H|H]; [right; now left|].
      destruct (IH H) as [H'|H']; [now left | right; now right].
Qed.

Lemma In_index_entries {A : Type} (o : obj A) (x : N * (string * A)) :
  In x (index_entries o) -> In (snd x) o.
Proof.
  induction o as [|[k v] o IH]; simpl; [tauto|].
  destruct (array_index k).
  - intros H. destruct (In_insert_by_index _ _ _ _ H) as [->|H']; [now left | right; auto].
  - intros H. right. auto.
Qed.

Lemma In_own_entries {A : Type} (o : obj A) (kv : string * A) :
  In kv (own_entries o) -> In kv o.
Proof.
  unfold own_entries, string_entries. intros H.
  apply in_app_or in H. destruct H as [H|H].
  - apply in_map_iff in H. destruct H as [x [<- Hx]]. now apply In_index_entries.
  - now apply filter_In in H.
Qed.

(** ** Reading a spread object *)

Lemma obj_get_app {A : Type} (o o' : obj A) (k : string) :
  obj_get (o ++ o')%list k
  = match obj_get o k with Some v => Some v | None => obj_get o' k end.
Proof.
  induction o as [|[k' v] o IH]; simpl; [reflexivity|].
  now destruct (String.eqb k' k).
Qed.

Lemma obj_get_string_entries {A : Type} (o : obj A) (k : string) :
  obj_get (string_entries o) k = if not_index k then obj_get o k else None.
Proof.
  unfold string_entries. induction o as [|[k' v] o IH]; simpl.
  - now destruct (not_index k).
  - destruct (String.eqb k' k) eqn:E.
    + apply String.eqb_eq in E. subst k'.
      destruct (not_index k) eqn:Ek; simpl; [now rewrite String.eqb_refl | exact IH].
    + destruct (not_index k'); simpl; [rewrite E|]; exact IH.
Qed.

Lemma index_entries_indexed {A : Type} (o : obj A) :
  Forall (fun x => array_index (fst (snd x)) = Some (fst x)) (index_entries o).
Proof.
  induction o as [|[k v] o IH]; simpl; [constructor|].
  destruct (array_index k) as [i|] eqn:E; [|exact IH].
  rewrite Forall_forall in IH |- *. intros x Hx.
  destruct (In_insert_by_index _ _ _ _ Hx) as [->|Hx']; [exact E | now apply IH].
Qed.

Lemma obj_get_insert_by_index {A : Type} (i : N) (k' k : string) (v : A)
    (l : list (N * (string * A))) :
  array_index k' = Some i ->
  Forall (fun x => array_index (fst (snd x)) = Some (fst x)) l ->
  obj_get (map snd (insert_by_index i (k', v) l)) k
  = if String.eqb k' k then Some v else obj_get (map snd l) k.
Proof.
  intros Hi Hl. induction Hl as [|[j [k1 v1]] l Hx Hl IH]; simpl; [reflexivity|].
  destruct (i <=? j)%N eqn:E; simpl; [reflexivity|].
  rewrite IH. simpl in Hx.
  destruct (String.eqb k1 k) eqn:E1; [|reflexivity].
  destruct (String.eqb k' k) eqn:E2; [|reflexivity].
  apply String.eqb_eq in E1, E2. subst k1 k'.
  rewrite Hx in Hi. inversion Hi; subst j.
  apply N.leb_gt in E. lia.
Qed.

Lemma obj_get_index_entries {A : Type} (o : obj A) (k : string) :
  obj_get (map snd (index_entries o)) k = if not_index k then None else obj_get o k.
Proof.
  induction o as [|[k' v] o IH]; simpl.
  - now destruct (not_index k).
  - destruct (array_index k') as [i|] eqn:Ei.
    + rewrite (obj_get_insert_by_index i) by (auto using index_entries_indexed).
      rewrite IH. destruct (String.eqb k' k) eqn:E; [|reflexivity].
      apply String.eqb_eq in E. subst k'. unfold not_index. now rewrite Ei.
    + rewrite IH. destruct (String.eqb k' k) eqn:E; [|reflexivity].
      apply String.eqb_eq in E. subst k'. unfold not_index. now rewrite Ei.
Qed.

(** Enumeration reorders the properties and loses none. *)
Lemma obj_get_own_entries {A : Type} (o : obj A) (k : string) :
  obj_get (own_entries o) k = obj_get o k.
Proof.
  unfold own_entries.
  rewrite obj_get_app, obj_get_index_entries, obj_get_string_entries.
  destruct (not_index k); [reflexivity|]. now destruct (obj_get o k).
Qed.

Lemma obj_get_spread {A : Type} (o : obj A) (k : string) :
  obj_get (spread o) k = obj_get o k.
Proof. apply obj_get_own_entries. Qed.

(** ** The accumulator of the analytics handler *)

Lemma filter_filter_pointwise {A : Type} (f g h : A -> bool) (l : list A) :
  (forall x, g x && f x = h x) -> filter f (filter g l) = filter h l.
Proof.
  intros H. induction l as [|x l IH]; simpl; [reflexivity|].
  rewrite <- H. destruct (g x); simpl; [|exact IH].
  destruct (f x); now rewrite IH.
Qed.

Lemma has_key_app (k : string) (ks ks' : list string) :
  has_key k (ks ++ ks') = has_key k ks || has_key k ks'.
Proof. unfold has_key. apply existsb_app. Qed.

Lemma reduce_app (l1 l2 : list Peer.t) (acc : accumulator) :
  reduce (l1 ++ l2) acc
  = match reduce l1 acc with
    | Some acc' => reduce l2 acc'
    | None => None
    end.
Proof.
  revert acc. induction l1 as [|p l1 IH]; intros acc; simpl; [reflexivity|].
  destruct (details_step acc p); [apply IH | reflexivity].
Qed.

(** A step that returns has computed a duration and assigned the summary. *)
Lemma details_step_Some (acc : accumulator) (peer : Peer.t) (acc' : accumulator) :
  details_step acc peer = Some acc' ->
  exists duration,
    or_zero_plus (acc_get acc (Peer.user_id peer)) (roundedDuration peer) = Some duration
    /\ acc' = acc_set acc (Peer.user_id peer)
                (Summary.make (Peer.name peer) (Peer.user_id peer) duration).
Proof.
  unfold details_step. destruct (or_zero_plus _ _) as [d|]; [|discriminate].
  intros H. inversion H. now exists d.
Qed.

Lemma own_acc_set (acc : accumulator) (k : string) (entry : Summary.t) :
  own (acc_set acc k entry) = if is_proto k then own acc else obj_set (own acc) k entry.
Proof. unfold acc_set, is_proto. now destruct (String.eqb k "__proto__"). Qed.

Lemma prototype_acc_set (acc : accumulator) (k : string) (entry : Summary.t) :
  prototype (acc_set acc k entry) = if is_proto k then Some entry else prototype acc.
Proof. unfold acc_set, is_proto. now destruct (String.eqb k "__proto__"). Qed.

(** The own keys of the accumulator: the user_ids other than [__proto__], in
    the order in which they were first met. *)
Lemma keys_reduce (peers : list Peer.t) (acc acc' : accumulator) :
  reduce peers acc = Some acc' ->
  keys (own acc')
  = (keys (own acc) ++ filter (fun k => negb (has_key k (keys (own acc))))
                             (first_occurrences (own_ids peers)))%list.
Proof.
  revert acc. induction peers as [|p ps IH]; intros acc; simpl.
  - intros H. inversion H. now rewrite app_nil_r.
  - destruct (details_step acc p) as [a1|] eqn:E; [|discriminate].
    intros H. rewrite (IH _ H).
    destruct (details_step_Some _ _ _ E) as (d & _ & ->).
    rewrite own_acc_set. unfold own_ids. simpl.
    destruct (is_proto (Peer.user_id p)) eqn:Ep; simpl; [reflexivity|].
    rewrite keys_obj_set.
    destruct (has_key (Peer.user_id p) (keys (own acc))) eqn:Ek; simpl.
    + f_equal. symmetry. apply filter_filter_pointwise. intros x.
      destruct (String.eqb x (Peer.user_id p)) eqn:Ex; simpl; [|reflexivity].
      apply String.eqb_eq in Ex. subst x. now rewrite Ek.
    + rewrite <- app_assoc. simpl. do 2 f_equal.
      symmetry. apply filter_filter_pointwise. intros x.
      rewrite has_key_app. unfold has_key at 2. simpl.
      rewrite orb_false_r, (String.eqb_sym (Peer.user_id p) x), negb_orb.
      apply andb_comm.
Qed.

Lemma Forall_obj_set {A : Type} (P : string * A -> Prop) (o : obj A) (k : string) (v : A) :
  Forall P o -> (forall k', k' = k -> P (k', v)) -> Forall P (obj_set o k v).
Proof.
  intros Ho Hk. induction Ho as [|[k' v'] o Hx Ho IH]; simpl.
  - constructor; [now apply Hk | constructor].
  - destruct (String.eqb k' k) eqn:E.
    + constructor; [|exact Ho]. apply Hk. now apply String.eqb_eq.
    + constructor; assumption.
Qed.

Lemma reduce_user_ids (peers : list Peer.t) (acc acc' : accumulator) :
  Forall (fun kv => Summary.user_id (snd kv) = fst kv) (own acc) ->
  reduce peers acc = Some acc' ->
  Forall (fun kv => Summary.user_id (snd kv) = fst kv) (own acc').
Proof.
  revert acc. induction peers as [|p ps IH]; intros acc Hacc; simpl.
  - intros H. now inversion H; subst.
  - destruct (details_step acc p) as [a1|] eqn:E; [|discriminate].
    apply IH. destruct (details_step_Some _ _ _ E) as (d & _ & ->).
    rewrite own_acc_set. destruct (is_proto (Peer.user_id p)); [exact Hacc|].
    apply Forall_obj_set; [exact Hacc|]. intros k' ->. reflexivity.
Qed.

Lemma In_first_occurrences (l : list string) (k : string) :
  In k (first_occurrences l) -> In k l.
Proof.
  induction l as [|x l IH]; simpl; [tauto|].
  intros [H|H]; [now left|]. right. apply IH. now apply filter_In in H.
Qed.

Lemma enumeration_order_no_index (ks : list string) :
  (forall k, In k ks -> array_index k = None) -> enumeration_order ks = ks.
Proof.
  intros H. unfold enumeration_order.
  assert (E : index_keys ks = [] /\ filter not_index ks = ks).
  { induction ks as [|k ks IH]; simpl; [now split|].
    assert (Hk : array_index k = None) by (apply H; now left).
    destruct IH as [IH1 IH2]; [intros k' Hk'; apply H; now right|].
    unfold not_index at 1. rewrite Hk. split; [exact IH1 | now rewrite IH2]. }
  destruct E as [-> ->]. reflexivity.
Qed.

(** The index part of an enumeration is in ascending order. *)
Lemma insert_by_index_sorted {B : Type} (i : N) (b : B) (l : list (N * B)) :
  StronglySorted (fun x y => (fst x <= fst y)%N) l ->
  StronglySorted (fun x y => (fst x <= fst y)%N) (insert_by_index i b l).
Proof.
  intros Hl. induction Hl as [|[j b'] l Hl IH Hj]; simpl.
  - constructor; constructor.
  - destruct (i <=? j)%N eqn:E.
    + apply N.leb_le in E. constructor; [constructor; assumption|].
      constructor; [exact E|].
      rewrite Forall_forall in Hj |- *. intros x Hx. specialize (Hj x Hx).
      simpl in *. lia.
    + apply N.leb_gt in E. constructor; [exact IH|].
      rewrite Forall_forall in Hj |- *. intros x Hx.
      destruct (In_insert_by_index _ _ _ _ Hx) as [->|Hx']; simpl; [lia|].
      now apply Hj.
Qed.

Lemma index_keys_ascending (ks : list string) :
  StronglySorted (fun x y => (fst x <= fst y)%N) (index_keys ks).
Proof.
  induction ks as [|k ks IH]; simpl; [constructor|].
  destruct (array_index k); [now apply insert_by_index_sorted | exact IH].
Qed.

Lemma summary_ids_are_keys (o : obj Summary.t) :
  Forall (fun kv => Summary.user_id (snd kv) = fst kv) o ->
  map Summary.user_id (Object_values o) = Object_keys o.
Proof.
  intros H. unfold Object_values, Object_keys. rewrite map_map.
  apply map_ext_in. intros kv Hkv. apply In_own_entries in Hkv.
  rewrite Forall_forall in H. now apply H.
Qed.

Lemma own_ids_without_proto (peers : list Peer.t) :
  (forall p, In p peers -> Peer.user_id p <> "__proto__") ->
  own_ids peers = map Peer.user_id peers.
Proof.
  unfold own_ids. induction peers as [|p ps IH]; intros H; simpl; [reflexivity|].
  replace (is_proto (Peer.user_id p)) with false.
  - simpl. f_equal. apply IH. intros q Hq. apply H. now right.
  - symmetry. apply String.eqb_neq. apply H. now left.
Qed.

Lemma In_own_ids (peers : list Peer.t) (k : string) :
  In k (own_ids peers) <-> In k (map Peer.user_id peers) /\ k <> "__proto__".
Proof.
  unfold own_ids, is_proto. rewrite filter_In, negb_true_iff, String.eqb_neq. tauto.
Qed.

(** While no user_id is [__proto__], the prototype stays [Object.prototype]
    and every step returns. *)
Lemma reduce_without_proto (peers : list Peer.t) (acc : accumulator) :
  (forall p, In p peers -> Peer.user_id p <> "__proto__") ->
  prototype acc = None ->
  exists acc', reduce peers acc = Some acc' /\ prototype acc' = None.
Proof.
  revert acc. induction peers as [|p ps IH]; intros acc Hp Hacc; simpl; [eauto|].
  assert (Hk : is_proto (Peer.user_id p) = false).
  { apply String.eqb_neq. apply Hp. now left. }
  assert (E : exists d,
             or_zero_plus (acc_get acc (Peer.user_id p)) (roundedDuration p) = Some d).
  { unfold acc_get. rewrite Hacc.
    destruct (obj_get (own acc) (Peer.user_id p)); [eexists; reflexivity|].
    unfold Object_prototype_get. unfold is_proto in Hk. rewrite Hk.
    destruct (obj_get Object_prototype_methods (Peer.user_id p)); eexists; reflexivity. }
  destruct E as [d E]. unfold details_step. rewrite E.
  apply IH; [intros q Hq; apply Hp; now right|].
  rewrite prototype_acc_set, Hk. exact Hacc.
Qed.

(** The reduce throws on a name only: it returns when every name has a
    text. *)
Lemma reduce_of_printable_names (peers : list Peer.t) (acc : accumulator) :
  (forall p, In p peers -> printable_name (Peer.name p) = true) ->
  match prototype acc with
  | Some entry => printable_name (Summary.name entry) = true
  | None => True
  end ->
  exists acc', reduce peers acc = Some acc'.
Proof.
  revert acc. induction peers as [|p ps IH]; intros acc Hp Hacc; simpl; [eauto|].
  assert (E : exists d,
             or_zero_plus (acc_get acc (Peer.user_id p)) (roundedDuration p) = Some d).
  { assert (E0 : exists d,
               or_zero_plus (Object_prototype_get acc (Peer.user_id p)) (roundedDuration p)
               = Some d).
    { unfold Object_prototype_get.
      destruct (String.eqb (Peer.user_id p) "__proto__").
      - destruct (prototype acc); eexists; reflexivity.
      - destruct (obj_get Object_prototype_methods (Peer.user_id p)); eexists; reflexivity. }
    unfold acc_get.
    destruct (obj_get (own acc) (Peer.user_id p)); [eexists; reflexivity|].
    destruct (prototype acc) as [entry|]; [|exact E0].
    unfold summary_get.
    destruct (String.eqb (Peer.user_id p) "name").
    { destruct (Summary.name entry) as [v|]; [|eexists; reflexivity].
      simpl in Hacc. apply negb_true_iff in Hacc. unfold or_zero_plus. rewrite Hacc.
      destruct (truthy_value v); [|eexists; reflexivity].
      destruct v; eexists; reflexivity. }
    destruct (String.eqb (Peer.user_id p) "user_id").
    { unfold or_zero_plus. destruct (truthy_value _); eexists; reflexivity. }
    destruct (String.eqb (Peer.user_id p) "duration"); [|exact E0].
    unfold or_zero_plus.
    destruct (Summary.duration entry); destruct (truthy_value _); eexists; reflexivity. }
  destruct E as [d E]. unfold details_step. rewrite E.
  apply IH; [intros q Hq; apply Hp; now right|].
  rewrite prototype_acc_set. destruct (is_proto (Peer.user_id p)); [|exact Hacc].
  simpl. apply Hp. now left.
Qed.

Lemma keys_detailsByUser (peers : list Peer.t) (acc : accumulator) :
  detailsByUser peers = Some acc ->
  keys (own acc) = first_occurrences (own_ids peers).
Proof.
  intros H. unfold detailsByUser in H. rewrite (keys_reduce _ _ _ H). simpl.
  induction (first_occurrences _) as [|k l IH]; simpl; now f_equal.
Qed.

Lemma result_user_ids (peers : list Peer.t) (acc : accumulator) :
  detailsByUser peers = Some acc ->
  map Summary.user_id (result_of acc) = Object_keys (own acc).
Proof.
  intros H. unfold result_of. apply summary_ids_are_keys.
  apply (reduce_user_ids peers (make_accumulator [] None)); [constructor | exact H].
Qed.

(** C9 (as amended).  When the reduce returns, the per-user sequence is
    determined by the sequence of peers.  The user_id [__proto__] has no
    entry in it: an assignment under that key sets the prototype of the
    accumulator and creates no property.  Of the other user_ids, those that
    are array indices (canonical decimal integers below 2^32 - 1) come
    first, in ascending numeric order, and the rest follow in the order of
    their first occurrence among the peers.  When no user_id is an array
    index, the order is the order of first occurrence.  When no user_id is
    [__proto__], the reduce returns and every user_id has its entry; and the
    reduce returns whenever every name has a text. *)
Theorem user_order_is_enumeration_order (peers : list Peer.t) :
  (forall acc,
     detailsByUser peers = Some acc ->
     map Summary.user_id (result_of acc)
     = (map snd (index_keys (first_occurrences (own_ids peers)))
        ++ filter not_index (first_occurrences (own_ids peers)))%list
     /\ ((forall p, In p peers -> array_index (Peer.user_id p) = None) ->
         map Summary.user_id (result_of acc) = first_occurrences (own_ids peers)))
  /\ StronglySorted (fun x y => (fst x <= fst y)%N)
       (index_keys (first_occurrences (own_ids peers)))
  /\ ((forall p, In p peers -> Peer.user_id p <> "__proto__") ->
      own_ids peers = map Peer.user_id peers
      /\ exists acc, detailsByUser peers = Some acc)
  /\ ((forall p, In p peers -> printable_name (Peer.name p) = true) ->
      exists acc, detailsByUser peers = Some acc).
Proof.
  split; [|split; [|split]].
  - intros acc Hacc.
    assert (E : map Summary.user_id (result_of acc)
                = enumeration_order (first_occurrences (own_ids peers))).
    { rewrite (result_user_ids _ _ Hacc), Object_keys_order.
      now rewrite (keys_detailsByUser _ _ Hacc). }
    split; [exact E|].
    intros H. rewrite E. apply enumeration_order_no_index.
    intros k Hk. apply In_first_occurrences, In_own_ids in Hk.
    destruct Hk as [Hk _]. apply in_map_iff in Hk.
    destruct Hk as [p [<- Hp]]. now apply H.
  - apply index_keys_ascending.
  - intros H. split; [now apply own_ids_without_proto|].
    destruct (reduce_without_proto peers (make_accumulator [] None) H eq_refl)
      as (acc & E & _).
    now exists acc.
  - intros H. now apply reduce_of_printable_names.
Qed.

(** ** Rounding *)

Lemma pow2_double (k : Z) : 0 <= k -> 2 ^ (k + 1) = 2 * 2 ^ k.
Proof. intros Hk. rewrite Z.pow_add_r by lia. change (2 ^ 1) with 2. lia. Qed.

(** [round_half_up] is the nearest integer, the larger one in a tie:
    [n - 1/2 <= y < n + 1/2] for [y = signed s m / 2^k]. *)
Lemma round_half_up_nearest (s : bool) (m : positive) (e : Z) :
  e < 0 ->
  (2 * round_half_up s m e - 1) * 2 ^ (- e) <= 2 * signed s m
  < (2 * round_half_up s m e + 1) * 2 ^ (- e).
Proof.
  intros He. unfold round_half_up. rewrite pow2_double by lia.
  assert (HP : 0 < 2 ^ (- e)) by (apply Z.pow_pos_nonneg; lia).
  generalize dependent (2 ^ (- e)). intros P HP.
  generalize (signed s m). intros a.
  pose proof (Z.div_mod (2 * a + P) (2 * P) ltac:(lia)) as Hdm.
  pose proof (Z.mod_pos_bound (2 * a + P) (2 * P) ltac:(lia)) as Hb.
  nia.
Qed.

(** It is the half-away-from-zero integer, but for a negative tie, where it is
    the neighbour closer to zero. *)
Lemma round_half_up_vs_half_away (s : bool) (m : positive) (e : Z) :
  e < 0 ->
  round_half_up s m e = half_away s m e + (if s && tie m e then 1 else 0).
Proof.
  intros He. unfold round_half_up, half_away, tie, signed.
  rewrite pow2_double by lia.
  assert (HP : 0 < 2 ^ (- e)) by (apply Z.pow_pos_nonneg; lia).
  generalize dependent (2 ^ (- e)). intros P HP.
  generalize (Zpos m). intros a.
  destruct s; cbn [cond_Zopp andb]; [|lia].
  pose proof (Z.div_mod (2 * a + P) (2 * P) ltac:(lia)) as Hdm.
  pose proof (Z.mod_pos_bound (2 * a + P) (2 * P) ltac:(lia)) as Hb.
  destruct ((2 * a + P) mod (2 * P) =? 0) eqn:E.
  - apply Z.eqb_eq in E. symmetry. apply Z.div_unique with (r := 0); nia.
  - apply Z.eqb_neq in E. symmetry.
    apply Z.div_unique with (r := 2 * P - (2 * a + P) mod (2 * P)); nia.
Qed.

(** C4 (as amended).  A peer's duration is rounded by
    [Math.round(duration * 100) / 100] on doubles.  When the product
    [duration * 100] is finite with a negative exponent (every finite double
    that is no integer is), [Math.round] gives the nearest integer [n],
    [n - 1/2 <= duration * 100 < n + 1/2], so a tie goes toward +infinity.
    That is the half-away-from-zero integer except on a negative tie, where it
    is the neighbour closer to zero; the result is [n / 100], with the sign
    of the product when [n] is zero.  A product with another exponent, which
    is an integer, a zero, an infinity and NaN are divided by 100 as they
    are. *)
Theorem rounded_duration_half_up (peer : Peer.t) :
  match num_mul (peer_minutes peer) (Z2num 100) with
  | S754_finite s m e =>
      if e <? 0 then
        let n := round_half_up s m e in
        (2 * n - 1) * 2 ^ (- e) <= 2 * signed s m < (2 * n + 1) * 2 ^ (- e)
        /\ n = half_away s m e + (if s && tie m e then 1 else 0)
        /\ roundedDuration peer
           = num_div (if n =? 0 then S754_zero s else Z2num n) (Z2num 100)
      else roundedDuration peer = num_div (S754_finite s m e) (Z2num 100)
  | y => roundedDuration peer = num_div y (Z2num 100)
  end.
Proof.
  unfold roundedDuration, round2.
  destruct (num_mul (peer_minutes peer) (Z2num 100)) as [z|z| |s m e] eqn:E;
    try reflexivity.
  destruct (e <? 0) eqn:He.
  - apply Z.ltb_lt in He. cbv zeta. split; [|split].
    + now apply round_half_up_nearest.
    + now apply round_half_up_vs_half_away.
    + unfold Math_round. replace (0 <=? e) with false; [reflexivity|].
      symmetry. apply Z.leb_gt. exact He.
  - apply Z.ltb_ge in He. unfold Math_round.
    replace (0 <=? e) with true; [reflexivity|]. symmetry. now apply Z.leb_le.
Qed.

(** ** [toFixed(2)] *)

Lemma all_digits_app (a b : string) :
  all_digits (a ++ b) = all_digits a && all_digits b.
Proof.
  induction a as [|c a IH]; simpl; [reflexivity|].
  now rewrite IH, andb_assoc.
Qed.

Lemma length_app (a b : string) :
  String.length (a ++ b) = (String.length a + String.length b)%nat.
Proof. induction a as [|c a IH]; simpl; [reflexivity | now rewrite IH]. Qed.

Lemma all_digits_zeros (k : nat) : all_digits (zeros k) = true.
Proof. induction k as [|k IH]; simpl; [reflexivity | exact IH]. Qed.

Lemma length_zeros (k : nat) : String.length (zeros k) = k.
Proof. induction k as [|k IH]; simpl; [reflexivity | now rewrite IH]. Qed.

Lemma all_digits_substring (s : string) (n m : nat) :
  all_digits s = true -> all_digits (substring n m s) = true.
Proof.
  revert n m. induction s as [|c s IH]; intros n m H.
  - destruct n, m; reflexivity.
  - simpl in H. apply andb_prop in H. destruct H as [Hc Hs].
    destruct n as [|n]; [destruct m as [|m]; [reflexivity|] | ]; simpl.
    + now rewrite Hc, IH.
    + now apply IH.
Qed.

Lemma length_substring (s : string) (n m : nat) :
  (n + m <= String.length s)%nat -> String.length (substring n m s) = m.
Proof.
  revert n m. induction s as [|c s IH]; intros n m H; simpl in H.
  - destruct n, m; simpl; lia.
  - destruct n as [|n]; [destruct m as [|m]; [reflexivity|] | ]; simpl.
    + rewrite IH; lia.
    + apply IH. lia.
Qed.

Lemma all_digits_uint (d : Decimal.uint) :
  all_digits (NilEmpty.string_of_uint d) = true.
Proof. induction d; simpl; auto. Qed.

Lemma decimal_digits (n : N) :
  all_digits (decimal n) = true /\ (1 <= String.length (decimal n))%nat.
Proof.
  unfold decimal. split; [apply all_digits_uint|].
  assert (H : N.to_uint n <> Decimal.Nil).
  { destruct n as [|p]; [discriminate|]. apply DecimalPos.Unsigned.to_uint_nonnil. }
  destruct (N.to_uint n); simpl; try lia. congruence.
Qed.

Lemma unsigned_two_decimals_app (a b : string) :
  all_digits a = true -> (1 <= String.length a)%nat ->
  all_digits b = true -> String.length b = 2%nat ->
  unsigned_two_decimals (a ++ "." ++ b) = true.
Proof.
  intros Ha Hla Hb Hlb.
  destruct b as [|d1 [|d2 [|d3 b]]]; try discriminate.
  simpl in Hb. apply andb_prop in Hb. destruct Hb as [Hd1 Hd2].
  apply andb_prop in Hd2. destruct Hd2 as [Hd2 _].
  induction a as [|c a IH]; simpl in *; [lia|].
  apply andb_prop in Ha. destruct Ha as [Hc Ha]. rewrite Hc. simpl.
  destruct a as [|c' a].
  - simpl. now rewrite Hd1, Hd2.
  - rewrite IH; [apply orb_true_r | exact Ha | simpl; lia].
Qed.

Lemma fixed_digits_two_decimals (n : N) :
  unsigned_two_decimals (fixed_digits n) = true.
Proof.
  unfold fixed_digits.
  destruct (decimal_digits n) as [Hd Hl].
  set (m := if (String.length (decimal n) <=? 2)%nat
            then zeros (3 - String.length (decimal n)) ++ decimal n
            else decimal n).
  assert (Hm : all_digits m = true /\ (3 <= String.length m)%nat).
  { subst m. destruct (String.length (decimal n) <=? 2)%nat eqn:E.
    - apply Nat.leb_le in E.
      rewrite all_digits_app, all_digits_zeros, length_app, length_zeros.
      split; [exact Hd | lia].
    - apply Nat.leb_gt in E. split; [exact Hd | lia]. }
  destruct Hm as [Hm1 Hm2].
  apply unsigned_two_decimals_app.
  - now apply all_digits_substring.
  - rewrite length_substring; lia.
  - now apply all_digits_substring.
  - apply length_substring. lia.
Qed.

(** A number in the fixed range is written with two decimals exactly. *)
Lemma toFixed2_two_decimals (x : number) :
  fixed_range x = true -> two_decimals (toFixed2 x) = true.
Proof.
  unfold two_decimals. destruct x as [z|z| |s m e]; simpl; try discriminate.
  - intros _. reflexivity.
  - intros H. apply negb_true_iff in H. rewrite H.
    destruct s; simpl; now rewrite fixed_digits_two_decimals.
Qed.

(** ** The entry of a user in the accumulator *)

Lemma obj_get_acc_set (acc : accumulator) (k k0 : string) (entry : Summary.t) :
  obj_get (own (acc_set acc k entry)) k0
  = if is_proto k then obj_get (own acc) k0
    else if String.eqb k k0 then Some entry else obj_get (own acc) k0.
Proof.
  rewrite own_acc_set. destruct (is_proto k); [reflexivity|].
  destruct (String.eqb k k0) eqn:E.
  - apply String.eqb_eq in E. subst k0. apply obj_get_set_same.
  - apply String.eqb_neq in E. apply obj_get_set_other. congruence.
Qed.

Lemma obj_get_reduce_later (peers : list Peer.t) (acc acc' : accumulator) (k : string) :
  ~ In k (map Peer.user_id peers) ->
  reduce peers acc = Some acc' ->
  obj_get (own acc') k = obj_get (own acc) k.
Proof.
  revert acc. induction peers as [|p ps IH]; intros acc H; simpl.
  - intros E. now inversion E.
  - destruct (details_step acc p) as [a1|] eqn:E; [|discriminate].
    intros Hr. simpl in H. rewrite (IH a1 ltac:(tauto) Hr).
    destruct (details_step_Some _ _ _ E) as (d & _ & ->).
    rewrite obj_get_acc_set. destruct (is_proto (Peer.user_id p)); [reflexivity|].
    destruct (String.eqb (Peer.user_id p) k) eqn:Ek; [|reflexivity].
    apply String.eqb_eq in Ek. tauto.
Qed.

Lemma prototype_reduce_later (peers : list Peer.t) (acc acc' : accumulator) :
  ~ In "__proto__" (map Peer.user_id peers) ->
  reduce peers acc = Some acc' ->
  prototype acc' = prototype acc.
Proof.
  revert acc. induction peers as [|p ps IH]; intros acc H; simpl.
  - intros E. now inversion E.
  - destruct (details_step acc p) as [a1|] eqn:E; [|discriminate].
    intros Hr. simpl in H. rewrite (IH a1 ltac:(tauto) Hr).
    destruct (details_step_Some _ _ _ E) as (d & _ & ->).
    rewrite prototype_acc_set.
    destruct (is_proto (Peer.user_id p)) eqn:Ek; [|reflexivity].
    apply String.eqb_eq in Ek. tauto.
Qed.

Lemma obj_get_reduce_seen (peers : list Peer.t) (acc acc' : accumulator) (k : string) :
  k <> "__proto__" ->
  In k (map Peer.user_id peers) ->
  reduce peers acc = Some acc' ->
  exists entry, obj_get (own acc') k = Some entry.
Proof.
  intros Hk. revert acc. induction peers as [|p ps IH]; intros acc H; simpl in *; [tauto|].
  destruct (details_step acc p) as [a1|] eqn:E; [|discriminate]. intros Hr.
  destruct (in_dec string_dec k (map Peer.user_id ps)) as [Hin|Hout]; [now apply (IH a1)|].
  destruct H as [H|H]; [|tauto].
  rewrite (obj_get_reduce_later _ _ _ _ Hout Hr).
  destruct (details_step_Some _ _ _ E) as (d & _ & ->).
  rewrite obj_get_acc_set, H.
  replace (is_proto k) with false by (symmetry; now apply String.eqb_neq).
  rewrite String.eqb_refl. eauto.
Qed.

(** A user_id that is an own key reads as the summary under it, and the sum
    is a text. *)
Lemma or_zero_plus_own (acc : accumulator) (k : string) (rounded : number) :
  obj_get (own acc) k <> None ->
  or_zero_plus (acc_get acc k) rounded
  = Some (Str ("[object Object]" ++ Number_toString rounded)).
Proof.
  unfold acc_get. destruct (obj_get (own acc) k); [reflexivity | congruence].
Qed.

(** The entry of a user that had one before the peers [peers], one of which
    is of that user: the name of the last such peer, and a text. *)
Lemma obj_get_reduce_again (peers : list Peer.t) (acc acc' : accumulator) (k : string) :
  k <> "__proto__" ->
  obj_get (own acc) k <> None ->
  In k (map Peer.user_id peers) ->
  reduce peers acc = Some acc' ->
  exists l1 p l2 text,
    peers = (l1 ++ p :: l2)%list /\ Peer.user_id p = k
    /\ ~ In k (map Peer.user_id l2)
    /\ obj_get (own acc') k = Some (Summary.make (Peer.name p) k (Str text)).
Proof.
  intros Hk. assert (Hp : is_proto k = false) by now apply String.eqb_neq.
  revert acc. induction peers as [|p ps IH]; intros acc Hacc H; simpl in *; [tauto|].
  destruct (details_step acc p) as [a1|] eqn:E; [|discriminate]. intros Hr.
  destruct (details_step_Some _ _ _ E) as (d & Hd & ->).
  destruct (in_dec string_dec k (map Peer.user_id ps)) as [Hin|Hout].
  - assert (H1 : obj_get (own (acc_set acc (Peer.user_id p)
                                  (Summary.make (Peer.name p) (Peer.user_id p) d))) k
                 <> None).
    { rewrite obj_get_acc_set. destruct (is_proto (Peer.user_id p)); [exact Hacc|].
      now destruct (String.eqb (Peer.user_id p) k). }
    destruct (IH _ H1 Hin Hr) as (l1 & q & l2 & text & -> & Hq & Hl2 & Eq).
    exists (p :: l1), q, l2, text. auto.
  - destruct H as [H|H]; [|tauto].
    rewrite (obj_get_reduce_later _ _ _ _ Hout Hr).
    rewrite obj_get_acc_set, H, Hp, String.eqb_refl.
    rewrite H, (or_zero_plus_own _ _ _ Hacc) in Hd. inversion Hd; subst d.
    exists [], p, ps. eexists. repeat split; [exact H | exact Hout].
Qed.

Lemma obj_get_In {A : Type} (o : obj A) (k : string) (v : A) :
  obj_get o k = Some v -> In (k, v) o.
Proof.
  induction o as [|[k' v'] o IH]; simpl; [discriminate|].
  destruct (String.eqb k' k) eqn:E.
  - apply String.eqb_eq in E. intros H. inversion H; subst. now left.
  - intros H. right. now apply IH.
Qed.

Lemma Object_values_In {A : Type} (o : obj A) (k : string) (v : A) :
  obj_get o k = Some v -> In v (Object_values o).
Proof.
  intros H. unfold Object_values. apply in_map_iff. exists (k, v).
  split; [reflexivity|]. apply obj_get_In. now rewrite obj_get_own_entries.
Qed.

(** Once a text, the running total stays a text. *)
Lemma total_of_text (result : list Summary.t) (a : numstr) :
  (exists text, a = Str text)
  \/ (exists entry text, In entry result /\ Summary.duration entry = Str text) ->
  exists text, fold_left (fun a b => js_plus a (Summary.duration b)) result a = Str text.
Proof.
  revert a. induction result as [|b result IH]; intros a H; simpl.
  - destruct H as [H|(entry & text & [] & _)]. exact H.
  - apply IH. destruct H as [[text ->]|(entry & text & [<-|Hin] & Hd)].
    + left. destruct (Summary.duration b); simpl; eauto.
    + left. rewrite Hd. destruct a; simpl; eauto.
    + right. eauto.
Qed.

(** ** The analytics handler *)

(** C1 (the code at the failing input).  For a user with two peer entries, of
    5.005 and of 2 minutes, the entries round to 5.01 and to 2, but the one
    summary entry the handler builds has the text ["[object Object]2"] for a
    duration and not their sum: the second entry adds its number to the
    summary object found under the user_id, not to that object's duration.
    The total is then a text as well, [toFixed] is missing on it, and the
    request ends in the handler's [catch]. *)
Theorem repeated_user_duration_is_text :
  map roundedDuration (Object_values reconnect_peers)
  = [num_div (Z2num 501) (Z2num 100); Z2num 2]
  /\ option_map result_of (detailsByUser (Object_values reconnect_peers))
     = Some [Summary.make (Some (VStr "Ann")) "user-1" (Str "[object Object]2")]
  /\ fst (session_analytics (Resolved (sessions_body [reconnect_session])))
     = internal_error.
Proof. repeat split; vm_compute; reflexivity. Qed.

(** A summary whose duration is a text makes the total a text, and the
    request ends in the handler's [catch] after the result was logged. *)
Lemma text_entry_fails
    (sessionData : Session.t) (rest : list Session.t) (last : option string)
    (peer_map : obj Peer.t) (acc : accumulator) (entry : Summary.t) (text : string) :
  Session.peers sessionData = Some peer_map ->
  detailsByUser (Object_values peer_map) = Some acc ->
  In entry (result_of acc) ->
  Summary.duration entry = Str text ->
  session_analytics (Resolved (SessionList.make (Some (sessionData :: rest)) last))
  = (internal_error,
     [log_session sessionData; log_result (result_of acc); log_error]).
Proof.
  intros Hp Hacc Hin Hd. simpl. rewrite Hp, Hacc.
  destruct (total_of_text (result_of acc) (Num (Z2num 0))) as [t Ht].
  { right. eauto. }
  unfold total_of. now rewrite Ht.
Qed.

(** X1 (C1 for every session).  When a peer entry is of a user met in an
    earlier entry, and the user_id is not [__proto__], the request ends in
    the handler's [catch].  When the reduce returns, the summary entry of
    that user has a text for a duration and the name of the user's last
    entry, the total is no number, and the session and the result were
    logged before the error. *)
Theorem reconnected_user_fails_the_request
    (sessionData : Session.t) (rest : list Session.t) (last : option string)
    (peer_map : obj Peer.t) (before : list Peer.t) (peer : Peer.t) (after : list Peer.t) :
  Session.peers sessionData = Some peer_map ->
  Object_values peer_map = (before ++ peer :: after)%list ->
  In (Peer.user_id peer) (map Peer.user_id before) ->
  Peer.user_id peer <> "__proto__" ->
  fst (session_analytics (Resolved (SessionList.make (Some (sessionData :: rest)) last)))
  = internal_error
  /\ forall acc,
       detailsByUser (Object_values peer_map) = Some acc ->
       (exists l1 p l2 text,
          (peer :: after = l1 ++ p :: l2)%list /\ Peer.user_id p = Peer.user_id peer
          /\ ~ In (Peer.user_id peer) (map Peer.user_id l2)
          /\ obj_get (own acc) (Peer.user_id peer)
             = Some (Summary.make (Peer.name p) (Peer.user_id peer) (Str text)))
       /\ session_analytics
            (Resolved (SessionList.make (Some (sessionData :: rest)) last))
          = (internal_error,
             [log_session sessionData; log_result (result_of acc); log_error]).
Proof.
  intros Hp Hv Hin Hk.
  assert (main : forall acc,
    detailsByUser (Object_values peer_map) = Some acc ->
    (exists l1 p l2 text,
       (peer :: after = l1 ++ p :: l2)%list /\ Peer.user_id p = Peer.user_id peer
       /\ ~ In (Peer.user_id peer) (map Peer.user_id l2)
       /\ obj_get (own acc) (Peer.user_id peer)
          = Some (Summary.make (Peer.name p) (Peer.user_id peer) (Str text)))
    /\ session_analytics
         (Resolved (SessionList.make (Some (sessionData :: rest)) last))
       = (internal_error,
          [log_session sessionData; log_result (result_of acc); log_error])).
  { intros acc Hacc.
    assert (E : exists l1 p l2 text,
       (peer :: after = l1 ++ p :: l2)%list /\ Peer.user_id p = Peer.user_id peer
       /\ ~ In (Peer.user_id peer) (map Peer.user_id l2)
       /\ obj_get (own acc) (Peer.user_id peer)
          = Some (Summary.make (Peer.name p) (Peer.user_id peer) (Str text))).
    { pose proof Hacc as Hr. rewrite Hv in Hr. unfold detailsByUser in Hr.
      rewrite reduce_app in Hr.
      destruct (reduce before _) as [a1|] eqn:E1; [|discriminate].
      apply (obj_get_reduce_again (peer :: after) a1 acc _ Hk); [|now left | exact Hr].
      destruct (obj_get_reduce_seen before _ a1 _ Hk Hin E1) as [entry ->].
      discriminate. }
    split; [exact E|].
    destruct E as (l1 & p & l2 & text & _ & _ & _ & E).
    apply (text_entry_fails sessionData rest last peer_map acc
             (Summary.make (Peer.name p) (Peer.user_id peer) (Str text)) text Hp Hacc);
      [|reflexivity].
    unfold result_of. eapply Object_values_In. exact E. }
  split; [|exact main].
  destruct (detailsByUser (Object_values peer_map)) as [acc|] eqn:Ed.
  - now rewrite (proj2 (main acc eq_refl)).
  - simpl. now rewrite Hp, Ed.
Qed.

Lemma summary_get_no_field (entry : Summary.t) (k : string) :
  summary_field k = false -> summary_get entry k = None.
Proof.
  unfold summary_field, summary_get.
  destruct (String.eqb k "name"); [discriminate|].
  destruct (String.eqb k "user_id"); [discriminate|].
  destruct (String.eqb k "duration"); [discriminate | reflexivity].
Qed.

(** A user_id that is no own key, is neither [__proto__] nor a method of
    [Object.prototype], and is not found on a summary made the prototype,
    reads [undefined]. *)
Lemma acc_get_undefined (acc : accumulator) (k : string) :
  obj_get (own acc) k = None ->
  plain_id k = true ->
  summary_field k = false \/ prototype acc = None ->
  acc_get acc k = Undefined.
Proof.
  intros Ho Hk Hf. unfold plain_id, is_proto, inherited in Hk.
  apply andb_true_iff in Hk. destruct Hk as [Hk1 Hk2].
  apply negb_true_iff in Hk1, Hk2.
  assert (E : Object_prototype_get acc k = Undefined).
  { unfold Object_prototype_get. rewrite Hk1.
    now destruct (obj_get Object_prototype_methods k). }
  unfold acc_get. rewrite Ho.
  destruct (prototype acc) as [entry|] eqn:Ep; [|exact E].
  destruct Hf as [Hf|Hf]; [|discriminate].
  now rewrite (summary_get_no_field entry k Hf).
Qed.

(** X2.  The entry of a user with one peer entry, when the reduce returns:
    that peer's name, and [0 + roundedDuration] for a duration, provided
    that the user_id reads [undefined] on a new object (it is neither
    [__proto__] nor the name of a method of [Object.prototype]) and either
    is not the name of a field of a summary or comes with no user_id
    [__proto__] before it. *)
Theorem single_entry_user_duration
    (before : list Peer.t) (peer : Peer.t) (after : list Peer.t) (acc : accumulator) :
  plain_id (Peer.user_id peer) = true ->
  summary_field (Peer.user_id peer) = false
  \/ ~ In "__proto__" (map Peer.user_id before) ->
  ~ In (Peer.user_id peer) (map Peer.user_id before) ->
  ~ In (Peer.user_id peer) (map Peer.user_id after) ->
  detailsByUser (before ++ peer :: after) = Some acc ->
  obj_get (own acc) (Peer.user_id peer)
  = Some (Summary.make (Peer.name peer) (Peer.user_id peer)
            (Num (num_add (Z2num 0) (roundedDuration peer)))).
Proof.
  intros Hk Hf Hb Ha. unfold detailsByUser. rewrite reduce_app.
  destruct (reduce before _) as [a1|] eqn:E1; [|discriminate]. simpl.
  destruct (details_step a1 peer) as [a2|] eqn:E2; [|discriminate].
  intros Hr. rewrite (obj_get_reduce_later _ _ _ _ Ha Hr).
  destruct (details_step_Some _ _ _ E2) as (d & Hd & ->).
  rewrite obj_get_acc_set, String.eqb_refl.
  replace (is_proto (Peer.user_id peer)) with false
    by (unfold plain_id in Hk; now destruct (is_proto (Peer.user_id peer))).
  rewrite acc_get_undefined in Hd; [simpl in Hd; now inversion Hd | | exact Hk |].
  - now rewrite (obj_get_reduce_later _ _ _ _ Hb E1).
  - destruct Hf as [Hf|Hf]; [now left | right].
    now rewrite (prototype_reduce_later _ _ _ Hf E1).
Qed.


(** C7 (as amended).  In a successful response, [session_duration] and
    [total_peer_duration] are [toFixed(2)] of the session's minutes and of the
    total of the per-user durations; each is written with exactly two decimal
    digits whenever that number is finite and below 10^21 in absolute value,
    integral or not. *)
Theorem durations_rendered_with_two_decimals
    (upstream : promise SessionList.t) (body : Analytics.t) (log : list console) :
  session_analytics upstream = (Json body, log) ->
  exists sessionData rest last peer_map acc total,
    upstream = Resolved (SessionList.make (Some (sessionData :: rest)) last)
    /\ Session.peers sessionData = Some peer_map
    /\ detailsByUser (Object_values peer_map) = Some acc
    /\ total_of (result_of acc) = Num total
    /\ Analytics.session_duration body = toFixed2 (session_minutes sessionData)
    /\ Analytics.total_peer_duration body = toFixed2 total
    /\ (fixed_range (session_minutes sessionData) = true ->
        two_decimals (Analytics.session_duration body) = true)
    /\ (fixed_range total = true ->
        two_decimals (Analytics.total_peer_duration body) = true).
Proof.
  destruct upstream as [[[[|sessionData rest]|] last]|msg]; simpl; try discriminate.
  destruct (Session.peers sessionData) as [peer_map|] eqn:Ep; try discriminate.
  destruct (detailsByUser (Object_values peer_map)) as [acc|] eqn:Ea; try discriminate.
  destruct (total_of _) as [total|text] eqn:Et; try discriminate.
  intros H. inversion H; subst; clear H. simpl.
  exists sessionData, rest, last, peer_map, acc, total.
  repeat split; auto using toFixed2_two_decimals.
Qed.

(** ** The walker *)

(** The first iteration, by the response to the first request. *)
Lemma walk_first (get : nat -> Filters.t -> promise SessionList.t)
    (room_id : option value) (fuel : nat) :
  session_list get room_id (S fuel)
  = match get O (first_request room_id) with
    | Rejected _ => Some ([first_request room_id], @internal_error sessions_var)
    | Resolved body =>
        match SessionList.data body with
        | None | Some [] => Some ([first_request room_id], Json (Pages []))
        | Some page =>
            if (List.length page <? 20)%nat
            then Some ([first_request room_id], Json (Length 1))
            else walk get room_id fuel [first_request room_id] (Length 1)
                      (SessionList.last body)
        end
    end.
Proof.
  unfold session_list, first_request. simpl.
  destruct (get O _) as [body|msg]; [|reflexivity].
  destruct (SessionList.data body) as [[|s page]|]; reflexivity.
Qed.

(** The second iteration: the variable holds a number by then. *)
Lemma walk_second (get : nat -> Filters.t -> promise SessionList.t)
    (room_id : option value) (fuel : nat) (body : SessionList.t) :
  walk get room_id (S fuel) [first_request room_id] (Length 1) (SessionList.last body)
  = Some ([first_request room_id; next_request room_id body],
          match get 1%nat (next_request room_id body) with
          | Rejected _ => @internal_error sessions_var
          | Resolved body2 =>
              match SessionList.data body2 with
              | None | Some [] => Json (Length 1)
              | Some _ => internal_error
              end
          end).
Proof.
  unfold next_request. simpl.
  destruct (get 1%nat _) as [body2|msg]; [|reflexivity].
  destruct (SessionList.data body2) as [[|s page]|]; reflexivity.
Qed.

(** C2 (the code at the failing input).  For an upstream with one page of one
    session, the handler issues one request and answers the number 1, not
    the one page-group; for two full pages and a short one it issues two
    requests only, and answers 500. *)
Theorem short_page_answers_a_number (fuel : nat) :
  session_list (paged [1%nat]) None (S fuel)
  = Some ([first_request None], Json (Length 1))
  /\ session_list (paged [20; 20; 1]%nat) None (S (S fuel))
     = Some ([first_request None; Filters.make None 20 (Some "next")], internal_error).
Proof. split; reflexivity. Qed.

(** C6.  Whatever the upstream answers, the loop ends: with fuel for two
    iterations the handler has its response.  The iterations, one per
    request, are at most the ceiling of [total / 20], plus one, for every
    [total] that is at least the number of items the requests returned, the
    number of items of the upstream among them; and a response that is a page
    of fewer than 20 items (an empty or absent one included) is the last one
    the handler asked for, whatever cursor it carries. *)
Theorem walker_terminates_within_bound
    (get : nat -> Filters.t -> promise SessionList.t) (room_id : option value)
    (fuel : nat) :
  exists issued res,
    session_list get room_id (S (S fuel)) = Some (issued, res)
    /\ (forall total,
          (totalItems get issued <= total)%nat ->
          (List.length issued <= (total + 19) / 20 + 1)%nat)
    /\ (forall i filters,
          nth_error issued i = Some filters ->
          short_page (get i filters) = true -> S i = List.length issued).
Proof.
  rewrite walk_first.
  assert (one : forall res : response sessions_var,
    exists issued res',
      Some ([first_request room_id], res) = Some (issued, res')
      /\ (forall total,
            (totalItems get issued <= total)%nat ->
            (List.length issued <= (total + 19) / 20 + 1)%nat)
      /\ (forall i filters,
            nth_error issued i = Some filters ->
            short_page (get i filters) = true -> S i = List.length issued)).
  { intros res. exists [first_request room_id], res.
    split; [reflexivity|]. split; [intros total _; simpl; lia|].
    intros [|[|i]] filters H; simpl in H; try discriminate. reflexivity. }
  destruct (get O (first_request room_id)) as [body|msg] eqn:E0; [|apply one].
  destruct (SessionList.data body) as [[|s page]|] eqn:Ed; try apply one.
  destruct (List.length (s :: page) <? 20)%nat eqn:El; [apply one|].
  rewrite walk_second.
  eexists _, _. split; [reflexivity|].
  apply Nat.ltb_ge in El.
  assert (H0 : page_items (get O (first_request room_id)) = List.length (s :: page)).
  { rewrite E0. simpl. now rewrite Ed. }
  split.
  - intros total. unfold totalItems, list_sum. cbn [responses map fold_right].
    rewrite H0. intros Ht.
    assert (1 <= (total + 19) / 20)%nat by (apply Nat.div_le_lower_bound; lia).
    simpl List.length. lia.
  - intros [|[|[|i]]] filters H; cbn [nth_error] in H; try discriminate.
    + inversion H; subst filters. unfold short_page. rewrite E0, <- E0, H0.
      intros Hs. apply Nat.ltb_lt in Hs. lia.
    + reflexivity.
Qed.

(** C8.  The handler assigns the result of [push], the new length, to
    [allSessions].  So (1) a first page that has sessions, fewer than 20, is
    answered by the number 1 after one request; (2) a first page of 20
    followed by a page that has sessions is answered by 500 after two
    requests, [push] being missing on the number; (3) a first page that is
    empty or absent is answered by the empty array, and (4) no other answer
    is an array. *)
Theorem push_result_replaces_the_array
    (get : nat -> Filters.t -> promise SessionList.t) (room_id : option value)
    (fuel : nat) :
  (forall body page,
     get O (first_request room_id) = Resolved body ->
     SessionList.data body = Some page ->
     (0 < List.length page < 20)%nat ->
     session_list get room_id (S fuel)
     = Some ([first_request room_id], Json (Length 1)))
  /\ (forall body page body2 page2,
        get O (first_request room_id) = Resolved body ->
        SessionList.data body = Some page ->
        List.length page = 20%nat ->
        get 1%nat (next_request room_id body) = Resolved body2 ->
        SessionList.data body2 = Some page2 ->
        page2 <> [] ->
        session_list get room_id (S (S fuel))
        = Some ([first_request room_id; next_request room_id body], internal_error))
  /\ (forall body,
        get O (first_request room_id) = Resolved body ->
        SessionList.data body = None \/ SessionList.data body = Some [] ->
        session_list get room_id (S fuel)
        = Some ([first_request room_id], Json (Pages [])))
  /\ (forall issued pages,
        session_list get room_id (S (S fuel)) = Some (issued, Json (Pages pages)) ->
        pages = [] /\ issued = [first_request room_id]
        /\ exists body,
             get O (first_request room_id) = Resolved body
             /\ (SessionList.data body = None \/ SessionList.data body = Some [])).
Proof.
  split; [|split; [|split]].
  - intros body page E0 Ed [Hl1 Hl2]. rewrite walk_first, E0, Ed.
    destruct page as [|s page]; [simpl in Hl1; lia|].
    apply Nat.ltb_lt in Hl2. now rewrite Hl2.
  - intros body page body2 page2 E0 Ed Hl E1 Ed2 Hne.
    rewrite walk_first, E0, Ed.
    destruct page as [|s page]; [discriminate|].
    replace (List.length (s :: page) <? 20)%nat with false
      by (symmetry; apply Nat.ltb_ge; lia).
    rewrite walk_second, E1, Ed2.
    destruct page2; [congruence | reflexivity].
  - intros body E0 [Ed|Ed]; now rewrite walk_first, E0, Ed.
  - intros issued pages. rewrite walk_first.
    destruct (get O (first_request room_id)) as [body|msg] eqn:E0; [|discriminate].
    destruct (SessionList.data body) as [[|s page]|] eqn:Ed.
    + intros H. inversion H; subst. repeat split. exists body. auto.
    + destruct (List.length (s :: page) <? 20)%nat; [discriminate|].
      rewrite walk_second.
      destruct (get 1%nat _) as [body2|msg2]; [|discriminate].
      destruct (SessionList.data body2) as [[|s2 page2]|]; discriminate.
    + intros H. inversion H; subst. repeat split. exists body. auto.
Qed.

(** ** The rooms handler *)

Lemma with_guest_codes_other (room : obj value) (guestCodes : list value) (k : string) :
  k <> "guest_room_codes" ->
  obj_get (with_guest_codes room guestCodes) k = obj_get room k.
Proof.
  intros H. unfold with_guest_codes.
  now rewrite obj_get_set_other, obj_get_spread.
Qed.

Lemma with_error_other (room : obj value) (k : string) :
  k <> "guest_room_codes" -> k <> "error_fetching_codes" ->
  obj_get (with_error room) k = obj_get room k.
Proof.
  intros H1 H2. unfold with_error.
  now rewrite !obj_get_set_other, obj_get_spread.
Qed.

Lemma with_error_fields (room : obj value) :
  obj_get (with_error room) "guest_room_codes" = Some (VArr [])
  /\ obj_get (with_error room) "error_fetching_codes"
     = Some (VStr "Failed to retrieve room codes").
Proof.
  unfold with_error. split.
  - rewrite obj_get_set_other by discriminate. apply obj_get_set_same.
  - apply obj_get_set_same.
Qed.

Lemma enrich_cases (get : nat -> string -> promise (option Codes.t)) (i : nat)
    (room : obj value) :
  enrich get i room = with_error room
  \/ exists guestCodes, enrich get i room = with_guest_codes room guestCodes.
Proof.
  unfold enrich. destruct (get i (codes_path room)) as [[[[codes|]]|]|msg].
  - destruct (filter_guest codes) as [guestCodes|]; [right; now exists guestCodes | now left].
  - right. now exists [].
  - right. now exists [].
  - now left.
Qed.

Lemma nth_error_enrich_all (get : nat -> string -> promise (option Codes.t))
    (rooms : list (obj value)) (i j : nat) :
  nth_error (enrich_all get i rooms) j
  = option_map (enrich get (i + j)) (nth_error rooms j).
Proof.
  revert i j. induction rooms as [|room rooms IH]; intros i j.
  - now destruct j.
  - destruct j as [|j]; simpl.
    + now rewrite Nat.add_0_r.
    + rewrite IH. now rewrite Nat.add_succ_r.
Qed.

(** C3.  When the sub-request of room [i] is rejected, the handler still
    answers with a JSON body (status 200); room [i] has an empty
    [guest_room_codes] and the field [error_fetching_codes]; and every other
    room is what it is under any upstream [get'] that answers the other
    sub-requests alike, one where no sub-request fails included. *)
Theorem failed_sub_request_is_isolated
    (body : RoomList.t) (rooms : list (obj value))
    (get get' : nat -> string -> promise (option Codes.t))
    (i : nat) (room : obj value) (message : string) :
  RoomList.data body = Some rooms ->
  nth_error rooms i = Some room ->
  get i (codes_path room) = Rejected message ->
  (forall j r, j <> i -> nth_error rooms j = Some r ->
               get' j (codes_path r) = get j (codes_path r)) ->
  exists out out',
    list_rooms (Resolved (Some body)) get
    = Json (Some (RoomList.make (Some out) (spread (RoomList.rest body))))
    /\ list_rooms (Resolved (Some body)) get'
       = Json (Some (RoomList.make (Some out') (spread (RoomList.rest body))))
    /\ List.length out = List.length rooms
    /\ nth_error out i = Some (with_error room)
    /\ obj_get (with_error room) "guest_room_codes" = Some (VArr [])
    /\ obj_get (with_error room) "error_fetching_codes"
       = Some (VStr "Failed to retrieve room codes")
    /\ (forall j, j <> i -> nth_error out j = nth_error out' j).
Proof.
  intros Hd Hi Hrej Hsame.
  exists (enrich_all get 0 rooms), (enrich_all get' 0 rooms).
  assert (Hne : exists r rs, rooms = r :: rs).
  { destruct rooms as [|r rs]; [destruct i; discriminate | now exists r, rs]. }
  destruct Hne as [r [rs Hrooms]].
  split; [|split; [|split; [|split; [|split; [|split]]]]].
  - unfold list_rooms. rewrite Hd, Hrooms. reflexivity.
  - unfold list_rooms. rewrite Hd, Hrooms. reflexivity.
  - clear. generalize 0%nat. induction rooms as [|x xs IH]; intros n; simpl; [reflexivity|].
    now rewrite IH.
  - rewrite nth_error_enrich_all, Hi. simpl. unfold enrich. now rewrite Hrej.
  - apply with_error_fields.
  - apply with_error_fields.
  - intros j Hj. rewrite !nth_error_enrich_all. simpl.
    destruct (nth_error rooms j) as [rj|] eqn:Ej; [|reflexivity].
    simpl. unfold enrich. now rewrite (Hsame j rj Hj Ej).
Qed.

(** C10 (as amended).  The handler always answers with a JSON body in which
    every field of the envelope other than [data] is the upstream's.  When
    there are rooms, each room of the answer has every field of the upstream's
    room unchanged, except [guest_room_codes], which is set whether or not
    the room had one, and, when the codes could not be fetched,
    [error_fetching_codes]; when there are none, the body is the
    upstream's. *)
Theorem enrichment_keeps_other_fields
    (body : RoomList.t) (get : nat -> string -> promise (option Codes.t)) :
  exists out,
    list_rooms (Resolved (Some body)) get = Json (Some out)
    /\ (forall k, obj_get (RoomList.rest out) k = obj_get (RoomList.rest body) k)
    /\ match RoomList.data body with
       | Some (room :: rooms) =>
           exists rooms',
             RoomList.data out = Some rooms'
             /\ Forall2 room_kept (room :: rooms) rooms'
       | _ => out = body
       end.
Proof.
  unfold list_rooms.
  destruct (RoomList.data body) as [[|room rooms]|] eqn:Ed;
    try (exists body; now rewrite ?Ed).
  eexists. split; [reflexivity|]. simpl. split; [intros k; apply obj_get_spread|].
  eexists. split; [reflexivity|].
  change (Forall2 room_kept (room :: rooms) (enrich_all get 0 (room :: rooms))).
  generalize (room :: rooms). generalize 0%nat. clear.
  intros n l. revert n. induction l as [|r l IH]; intros n; simpl; constructor; [|apply IH].
  destruct (enrich_cases get n r) as [E|[g E]]; rewrite E.
  - right. split; [reflexivity|]. intros k. apply with_error_other.
  - left. split; [now exists g|]. intros k. apply with_guest_codes_other.
Qed.

(** ** The analytics handler, by the user_ids of the peers *)

Lemma obj_set_absent {A : Type} (o : obj A) (k : string) (v : A) :
  obj_get o k = None -> obj_set o k v = (o ++ [(k, v)])%list.
Proof.
  induction o as [|[k' v'] o IH]; simpl; [reflexivity|].
  destruct (String.eqb k' k); [discriminate|]. intros H. now rewrite IH.
Qed.

Lemma index_entries_map_values {A B : Type} (f : A -> B) (o : obj A) :
  index_entries (map (fun kv => (fst kv, f (snd kv))) o)
  = map (fun jb => (fst jb, (fst (snd jb), f (snd (snd jb))))) (index_entries o).
Proof.
  induction o as [|[k v] o IH]; simpl; [reflexivity|].
  destruct (array_index k) as [i|]; [|exact IH].
  rewrite IH. symmetry.
  apply (insert_by_index_map (fun kv => (fst kv, f (snd kv))) i (k, v)).
Qed.

(** Enumeration sees the keys only. *)
Lemma Object_values_map {A B : Type} (f : A -> B) (o : obj A) :
  Object_values (map (fun kv => (fst kv, f (snd kv))) o) = map f (Object_values o).
Proof.
  unfold Object_values, own_entries, string_entries.
  rewrite index_entries_map_values, !map_app, !map_map. f_equal.
  induction o as [|[k v] o IH]; simpl; [reflexivity|].
  destruct (not_index k); simpl; now rewrite IH.
Qed.

(** The reduce on peers whose user_ids are distinct and all read
    [undefined] on a new object: one summary per peer, created in the order
    of the peers. *)
Lemma details_of_distinct_users (peers : list Peer.t) (acc : accumulator) :
  NoDup (map Peer.user_id peers) ->
  (forall p, In p peers -> plain_id (Peer.user_id p) = true) ->
  (forall p, In p peers -> obj_get (own acc) (Peer.user_id p) = None) ->
  prototype acc = None ->
  reduce peers acc
  = Some (make_accumulator
            (own acc ++ map (fun p => (Peer.user_id p, summary_of p)) peers)%list None).
Proof.
  revert acc. induction peers as [|p ps IH]; intros [o pr] Hnd Hpl Hacc Hpr;
    simpl in *; subst pr.
  - now rewrite app_nil_r.
  - inversion Hnd as [|k ks Hk Hks]; subst.
    assert (Ho : obj_get o (Peer.user_id p) = None) by (apply Hacc; now left).
    assert (Hp : plain_id (Peer.user_id p) = true) by (apply Hpl; now left).
    unfold details_step.
    rewrite (acc_get_undefined (make_accumulator o None) _ Ho Hp) by now right.
    simpl. unfold acc_set.
    replace (String.eqb (Peer.user_id p) "__proto__") with false
      by (unfold plain_id, is_proto in Hp; now destruct (String.eqb _ "__proto__")).
    simpl. rewrite (obj_set_absent _ _ _ Ho).
    rewrite IH; simpl; [now rewrite <- app_assoc | exact Hks | | | reflexivity].
    + intros q Hq. apply Hpl. now right.
    + intros q Hq. rewrite obj_get_app, (Hacc q) by now right. simpl.
      destruct (String.eqb (Peer.user_id p) (Peer.user_id q)) eqn:Eq; [|reflexivity].
      apply String.eqb_eq in Eq. exfalso. apply Hk. rewrite Eq. now apply in_map.
Qed.

Lemma detailsByUser_of_distinct_users (peers : list Peer.t) :
  NoDup (map Peer.user_id peers) ->
  (forall p, In p peers -> plain_id (Peer.user_id p) = true) ->
  exists acc,
    detailsByUser peers = Some acc
    /\ result_of acc = map summary_of (by_user_id peers).
Proof.
  intros Hnd Hpl. eexists. split.
  - unfold detailsByUser. apply details_of_distinct_users; auto.
  - unfold result_of, by_user_id. simpl.
    rewrite <- (Object_values_map summary_of), map_map. reflexivity.
Qed.

Lemma total_of_numbers (peers : list Peer.t) (a : number) :
  fold_left (fun a b => js_plus a (Summary.duration b)) (map summary_of peers) (Num a)
  = Num (fold_left num_add
           (map (fun p => num_add (Z2num 0) (roundedDuration p)) peers) a).
Proof.
  revert a. induction peers as [|p ps IH]; intros a; simpl; [reflexivity|]. apply IH.
Qed.

(** Either no user_id other than [__proto__] repeats, or some peer entry is
    of such a user met before. *)
Lemma distinct_or_reconnected (peers : list Peer.t) :
  NoDup (own_ids peers)
  \/ exists before peer after,
       peers = (before ++ peer :: after)%list
       /\ Peer.user_id peer <> "__proto__"
       /\ In (Peer.user_id peer) (map Peer.user_id before).
Proof.
  induction peers as [|p ps IH]; [left; constructor|].
  destruct IH as [Hnd|(before & peer & after & -> & Hk & Hin)].
  - unfold own_ids in *. simpl.
    destruct (is_proto (Peer.user_id p)) eqn:Ep; simpl; [now left|].
    destruct (in_dec string_dec (Peer.user_id p) (map Peer.user_id ps)) as [Hin|Hout].
    + right. apply in_map_iff in Hin. destruct Hin as (q & Hq & Hin).
      apply in_split in Hin. destruct Hin as (l1 & l2 & ->).
      exists (p :: l1), q, l2. split; [reflexivity|]. split.
      * rewrite Hq. now apply String.eqb_neq.
      * left. now symmetry.
    + left. constructor; [|exact Hnd].
      intros H. apply filter_In in H. tauto.
  - right. exists (p :: before), peer, after.
    split; [reflexivity|]. split; [exact Hk | now right].
Qed.

Lemma inherited_not_field (k : string) :
  inherited k = true -> summary_field k = false /\ is_proto k = false.
Proof.
  intros H. unfold summary_field, is_proto.
  destruct (String.eqb k "name") eqn:E1;
    [apply String.eqb_eq in E1; subst k; vm_compute in H; discriminate|].
  destruct (String.eqb k "user_id") eqn:E2;
    [apply String.eqb_eq in E2; subst k; vm_compute in H; discriminate|].
  destruct (String.eqb k "duration") eqn:E3;
    [apply String.eqb_eq in E3; subst k; vm_compute in H; discriminate|].
  destruct (String.eqb k "__proto__") eqn:E4;
    [apply String.eqb_eq in E4; subst k; vm_compute in H; discriminate|].
  now split.
Qed.

(** A user_id that names a method of [Object.prototype] never reads
    [undefined]: the sum is a text, on the first entry of the user as on a
    later one. *)
Lemma or_zero_plus_inherited (acc : accumulator) (k : string) (rounded : number) :
  inherited k = true ->
  exists text, or_zero_plus (acc_get acc k) rounded = Some (Str text).
Proof.
  intros H. destruct (inherited_not_field k H) as [Hf Hp].
  unfold acc_get. destruct (obj_get (own acc) k); [simpl; eauto|].
  assert (E : exists text,
             or_zero_plus (Object_prototype_get acc k) rounded = Some (Str text)).
  { unfold Object_prototype_get. unfold is_proto in Hp. rewrite Hp.
    unfold inherited in H.
    destruct (obj_get Object_prototype_methods k); [simpl; eauto | discriminate]. }
  destruct (prototype acc) as [entry|]; [|exact E].
  now rewrite (summary_get_no_field entry k Hf).
Qed.

Lemma inherited_is_text (peers : list Peer.t) (acc : accumulator) (p : Peer.t) :
  In p peers ->
  inherited (Peer.user_id p) = true ->
  detailsByUser peers = Some acc ->
  exists entry text, In entry (result_of acc) /\ Summary.duration entry = Str text.
Proof.
  intros Hin Hi. destruct (inherited_not_field _ Hi) as [_ Hp].
  assert (Hk : Peer.user_id p <> "__proto__") by now apply String.eqb_neq.
  apply in_split in Hin. destruct Hin as (l1 & l2 & ->).
  unfold detailsByUser. rewrite reduce_app.
  destruct (reduce l1 _) as [a1|]; [|discriminate]. simpl.
  destruct (details_step a1 p) as [a2|] eqn:E2; [|discriminate]. intros Hr.
  destruct (details_step_Some _ _ _ E2) as (d & Hd & ->).
  destruct (or_zero_plus_inherited a1 _ (roundedDuration p) Hi) as [text Ht].
  rewrite Ht in Hd. inversion Hd; subst d. clear Hd.
  destruct (in_dec string_dec (Peer.user_id p) (map Peer.user_id l2)) as [Hin|Hout].
  - assert (H1 : obj_get (own (acc_set a1 (Peer.user_id p)
                                  (Summary.make (Peer.name p) (Peer.user_id p) (Str text))))
                         (Peer.user_id p)
                 <> None).
    { now rewrite obj_get_acc_set, Hp, String.eqb_refl. }
    destruct (obj_get_reduce_again l2 _ acc _ Hk H1 Hin Hr)
      as (_ & q & _ & text' & _ & _ & _ & E).
    exists (Summary.make (Peer.name q) (Peer.user_id p) (Str text')), text'.
    split; [|reflexivity].
    unfold result_of. eapply Object_values_In. exact E.
  - exists (Summary.make (Peer.name p) (Peer.user_id p) (Str text)), text.
    split; [|reflexivity].
    unfold result_of. apply (Object_values_In _ (Peer.user_id p)).
    rewrite (obj_get_reduce_later _ _ _ _ Hout Hr).
    now rewrite obj_get_acc_set, Hp, String.eqb_refl.
Qed.

Lemma reconnected_is_text (before : list Peer.t) (peer : Peer.t) (after : list Peer.t)
    (acc : accumulator) :
  Peer.user_id peer <> "__proto__" ->
  In (Peer.user_id peer) (map Peer.user_id before) ->
  detailsByUser (before ++ peer :: after) = Some acc ->
  exists entry text, In entry (result_of acc) /\ Summary.duration entry = Str text.
Proof.
  intros Hk Hin. unfold detailsByUser. rewrite reduce_app.
  destruct (reduce before _) as [a1|] eqn:E1; [|discriminate]. intros Hr.
  destruct (obj_get_reduce_again (peer :: after) a1 acc _ Hk)
    as (_ & p & _ & text & _ & _ & _ & E); [|now left | exact Hr |].
  - destruct (obj_get_reduce_seen before _ a1 _ Hk Hin E1) as [entry ->]. discriminate.
  - exists (Summary.make (Peer.name p) (Peer.user_id peer) (Str text)), text.
    split; [|reflexivity].
    unfold result_of. eapply Object_values_In. exact E.
Qed.

(** X3.  The three answers of the analytics handler: 404 exactly when the
    upstream's list of sessions is empty, and otherwise a JSON body or 500.
    A JSON body is sent only for a first session whose peers are an object
    in which no user_id other than [__proto__] repeats and no user_id names
    a method of [Object.prototype]; and it is sent whenever, in addition, no
    user_id is [__proto__]. *)
Theorem analytics_outcomes (upstream : promise SessionList.t) :
  (fst (session_analytics upstream) = Send 404 "No session found for this room"
   <-> exists last, upstream = Resolved (SessionList.make (Some []) last))
  /\ (fst (session_analytics upstream) = Send 404 "No session found for this room"
      \/ (exists body, fst (session_analytics upstream) = Json body)
      \/ fst (session_analytics upstream) = internal_error)
  /\ (forall body,
        fst (session_analytics upstream) = Json body ->
        exists sessionData rest last peer_map,
          upstream = Resolved (SessionList.make (Some (sessionData :: rest)) last)
          /\ Session.peers sessionData = Some peer_map
          /\ NoDup (own_ids (Object_values peer_map))
          /\ forall p, In p (Object_values peer_map) ->
                       inherited (Peer.user_id p) = false)
  /\ (forall sessionData rest last peer_map,
        upstream = Resolved (SessionList.make (Some (sessionData :: rest)) last) ->
        Session.peers sessionData = Some peer_map ->
        NoDup (map Peer.user_id (Object_values peer_map)) ->
        (forall p, In p (Object_values peer_map) -> plain_id (Peer.user_id p) = true) ->
        exists body, fst (session_analytics upstream) = Json body).
Proof.
  split; [|split; [|split]].
  - destruct upstream as [[[[|sessionData rest]|] last]|message]; simpl.
    + split; [intros _; now exists last | reflexivity].
    + destruct (Session.peers sessionData) as [peer_map|];
        [destruct (detailsByUser _) as [acc|]; [destruct (total_of _)|]|];
        (split; [discriminate | intros [l H]; discriminate]).
    + split; [discriminate | intros [l H]; discriminate].
    + split; [discriminate | intros [l H]; discriminate].
  - destruct upstream as [[[[|sessionData rest]|] last]|message]; simpl;
      try (now left); try (right; now right).
    destruct (Session.peers sessionData) as [peer_map|]; [|right; now right].
    destruct (detailsByUser _) as [acc|]; [|right; now right].
    destruct (total_of _); simpl; [right; left; eauto | right; now right].
  - intros body.
    destruct upstream as [[[[|sessionData rest]|] last]|message]; try discriminate.
    intros H. exists sessionData, rest, last.
    destruct (Session.peers sessionData) as [peer_map|] eqn:Ep;
      [|simpl in H; rewrite Ep in H; discriminate].
    exists peer_map. split; [reflexivity|]. split; [reflexivity|].
    destruct (detailsByUser (Object_values peer_map)) as [acc|] eqn:Ea;
      [|simpl in H; rewrite Ep, Ea in H; discriminate].
    assert (numbers : forall entry text,
              In entry (result_of acc) -> Summary.duration entry <> Str text).
    { intros entry text Hin Hd.
      rewrite (text_entry_fails _ rest last _ _ _ _ Ep Ea Hin Hd) in H. discriminate. }
    split.
    + destruct (distinct_or_reconnected (Object_values peer_map))
        as [Hnd|(before & peer & after & Hv & Hk & Hin)]; [exact Hnd|].
      rewrite Hv in Ea.
      destruct (reconnected_is_text _ _ _ _ Hk Hin Ea) as (entry & text & He & Hd).
      now destruct (numbers entry text).
    + intros p Hp. destruct (inherited (Peer.user_id p)) eqn:Ei; [|reflexivity].
      destruct (inherited_is_text _ _ _ Hp Ei Ea) as (entry & text & He & Hd).
      now destruct (numbers entry text).
  - intros sessionData rest last peer_map -> Hp Hnd Hpl. simpl. rewrite Hp.
    destruct (detailsByUser_of_distinct_users _ Hnd Hpl) as (acc & -> & ->).
    unfold total_of. rewrite total_of_numbers. eexists. reflexivity.
Qed.

(** X4.  When no user_id repeats among the peers of the first session, and
    every user_id reads [undefined] on a new object (none is [__proto__] or
    the name of a method of [Object.prototype]), the handler answers with
    one summary per peer, in the order in which the user_ids are enumerated,
    each with the peer's name and [0 + roundedDuration] for a duration;
    [total_peer_duration] is [toFixed(2)] of the sum of these durations,
    added in that order from 0, and [session_duration] is [toFixed(2)] of
    the session's minutes. *)
Theorem distinct_users_are_answered
    (sessionData : Session.t) (rest : list Session.t) (last : option string)
    (peer_map : obj Peer.t) :
  Session.peers sessionData = Some peer_map ->
  NoDup (map Peer.user_id (Object_values peer_map)) ->
  (forall p, In p (Object_values peer_map) -> plain_id (Peer.user_id p) = true) ->
  fst (session_analytics (Resolved (SessionList.make (Some (sessionData :: rest)) last)))
  = Json (Analytics.make
            (map summary_of (by_user_id (Object_values peer_map)))
            (toFixed2 (session_minutes sessionData))
            (toFixed2
               (fold_left num_add
                  (map (fun p => num_add (Z2num 0) (roundedDuration p))
                       (by_user_id (Object_values peer_map)))
                  (Z2num 0)))).
Proof.
  intros Hp Hnd Hpl. simpl. rewrite Hp.
  destruct (detailsByUser_of_distinct_users _ Hnd Hpl) as (acc & -> & ->).
  unfold total_of. now rewrite total_of_numbers.
Qed.

Lemma insert_by_index_Permutation {B : Type} (i : N) (b : B) (l : list (N * B)) :
  Permutation (insert_by_index i b l) ((i, b) :: l).
Proof.
  induction l as [|[j b'] l IH]; simpl; [reflexivity|].
  destruct (i <=? j)%N; [reflexivity|].
  rewrite IH. apply perm_swap.
Qed.

(** Enumeration reorders the properties: it drops none and repeats none. *)
Lemma own_entries_Permutation {A : Type} (o : obj A) : Permutation (own_entries o) o.
Proof.
  unfold own_entries, string_entries.
  induction o as [|[k v] o IH]; simpl; [reflexivity|].
  unfold not_index at 1. simpl. destruct (array_index k) as [i|].
  - rewrite insert_by_index_Permutation. simpl. now constructor.
  - rewrite <- Permutation_middle. now constructor.
Qed.

Lemma NoDup_first_occurrences (l : list string) : NoDup (first_occurrences l).
Proof.
  induction l as [|k l IH]; simpl; constructor.
  - intros H. apply filter_In in H. destruct H as [_ H].
    now rewrite String.eqb_refl in H.
  - now apply NoDup_filter.
Qed.

Lemma first_occurrences_In (l : list string) (k : string) :
  In k l -> In k (first_occurrences l).
Proof.
  induction l as [|x l IH]; simpl; [tauto|].
  destruct (String.eqb k x) eqn:E.
  - apply String.eqb_eq in E. now left.
  - intros [H|H]; [subst; now rewrite String.eqb_refl in E|].
    right. apply filter_In. split; [now apply IH | now rewrite E].
Qed.

(** X5.  When the reduce returns, the per-user sequence has exactly one
    entry for each user_id met among the peers, but for [__proto__], which
    has none: no user_id occurs twice in it, and a user_id occurs in it if
    and only if it is the user_id of some peer and is not [__proto__]. *)
Theorem one_summary_per_user (peers : list Peer.t) (acc : accumulator) :
  detailsByUser peers = Some acc ->
  NoDup (map Summary.user_id (result_of acc))
  /\ (forall k,
        In k (map Summary.user_id (result_of acc))
        <-> In k (map Peer.user_id peers) /\ k <> "__proto__")
  /\ List.length (result_of acc) = List.length (first_occurrences (own_ids peers)).
Proof.
  intros Hacc.
  assert (P : Permutation (map Summary.user_id (result_of acc))
                (first_occurrences (own_ids peers))).
  { rewrite (result_user_ids _ _ Hacc), <- (keys_detailsByUser _ _ Hacc).
    unfold Object_keys, keys. apply Permutation_map, own_entries_Permutation. }
  split; [|split].
  - apply (Permutation_NoDup (Permutation_sym P)), NoDup_first_occurrences.
  - intros k. rewrite <- In_own_ids. split; intros H.
    + apply In_first_occurrences. now apply (Permutation_in _ P).
    + apply (Permutation_in _ (Permutation_sym P)). now apply first_occurrences_In.
  - rewrite <- (length_map Summary.user_id). now apply Permutation_length.
Qed.

(** ** The codes and the order of the rooms *)

Lemma is_guest_spec (code : value) :
  is_guest code = if is_null code then None else Some (guest_role code).
Proof.
  destruct code as [|b|x|t|items|fields]; simpl; try reflexivity.
  destruct (obj_get fields "role") as [[|b|x|t|items|fields']|]; reflexivity.
Qed.

Lemma filter_guest_spec (codes : list value) :
  filter_guest codes
  = if existsb is_null codes then None else Some (filter guest_role codes).
Proof.
  induction codes as [|code codes IH]; simpl; [reflexivity|].
  rewrite is_guest_spec, IH.
  destruct (is_null code); simpl; [reflexivity|].
  destruct (existsb is_null codes); [reflexivity|].
  now destruct (guest_role code).
Qed.

(** X6.  When the sub-request of a room resolves with an array of codes none
    of which is [null], the room gets as [guest_room_codes] the codes that
    are objects with [role] equal to the string [guest], in the order of the
    array, and no [error_fetching_codes] is written; when a code is [null],
    the room ends in the state of a failed sub-request. *)
Theorem guest_codes_are_filtered_by_role
    (get : nat -> string -> promise (option Codes.t)) (i : nat)
    (room : obj value) (codes : list value) :
  get i (codes_path room) = Resolved (Some (Codes.make (Some codes))) ->
  (existsb is_null codes = false ->
   enrich get i room = with_guest_codes room (filter guest_role codes)
   /\ obj_get (enrich get i room) "guest_room_codes"
      = Some (VArr (filter guest_role codes))
   /\ obj_get (enrich get i room) "error_fetching_codes"
      = obj_get room "error_fetching_codes")
  /\ (existsb is_null codes = true -> enrich get i room = with_error room).
Proof.
  intros E. unfold enrich. rewrite E, filter_guest_spec.
  split; intros H; rewrite H; [|reflexivity].
  split; [reflexivity|]. split.
  - unfold with_guest_codes. apply obj_get_set_same.
  - apply with_guest_codes_other. discriminate.
Qed.

Lemma enrich_keeps_id (get : nat -> string -> promise (option Codes.t)) (i : nat)
    (room : obj value) :
  obj_get (enrich get i room) "id" = obj_get room "id".
Proof.
  destruct (enrich_cases get i room) as [E|[g E]]; rewrite E.
  - apply with_error_other; discriminate.
  - apply with_guest_codes_other; discriminate.
Qed.

(** X7.  The rooms of the answer are as many as the rooms of the upstream and
    stand in the same order: the [id]s read in order are the same, and the
    room at each position is the enrichment of the upstream's room at that
    position by the sub-request of that position. *)
Theorem rooms_keep_their_order
    (body : RoomList.t) (get : nat -> string -> promise (option Codes.t))
    (room : obj value) (rooms : list (obj value)) :
  RoomList.data body = Some (room :: rooms) ->
  exists rooms',
    list_rooms (Resolved (Some body)) get
    = Json (Some (RoomList.make (Some rooms') (spread (RoomList.rest body))))
    /\ List.length rooms' = List.length (room :: rooms)
    /\ map (fun r => obj_get r "id") rooms' = map (fun r => obj_get r "id") (room :: rooms)
    /\ (forall j r, nth_error (room :: rooms) j = Some r ->
                    nth_error rooms' j = Some (enrich get j r)).
Proof.
  intros Hd. exists (enrich_all get 0 (room :: rooms)).
  split; [unfold list_rooms; now rewrite Hd|].
  split; [|split].
  - generalize (room :: rooms). generalize 0%nat. clear. intros n l.
    revert n. induction l as [|r l IH]; intros n; simpl; [reflexivity | now rewrite IH].
  - generalize (room :: rooms). generalize 0%nat. clear. intros n l.
    revert n. induction l as [|r l IH]; intros n; simpl; [reflexivity|].
    now rewrite enrich_keeps_id, IH.
  - intros j r H. rewrite nth_error_enrich_all, H. reflexivity.
Qed.

(** X8.  The rooms handler fails as a whole only with the list of rooms: it
    answers 500 exactly when the call for the rooms is rejected, whatever
    becomes of the sub-requests. *)
Theorem list_rooms_fails_only_with_the_room_list
    (roomListData : promise (option RoomList.t))
    (get : nat -> string -> promise (option Codes.t)) :
  list_rooms roomListData get = internal_error
  <-> exists message, roomListData = Rejected message.
Proof.
  unfold list_rooms. destruct roomListData as [[body|]|message].
  - destruct (RoomList.data body) as [[|room rooms]|];
      (split; [discriminate | intros [m H]; discriminate]).
  - split; [discriminate | intros [m H]; discriminate].
  - split; [eauto | reflexivity].
Qed.

(** ** The requests of the walker *)

(** X9.  Whenever the walker answers, it has issued one request or two.  Each
    asks for the room of the inbound request with [limit] 20; the first has no
    [start]; a second one is issued only after a first page of 20 sessions or
    more, and its [start] is the [last] of that page when that is a string
    that is not empty, and is absent otherwise. *)
Theorem walker_requests
    (get : nat -> Filters.t -> promise SessionList.t) (room_id : option value)
    (fuel : nat) (issued : list Filters.t) (res : response sessions_var) :
  session_list get room_id fuel = Some (issued, res) ->
  Forall (fun filters => Filters.limit filters = 20 /\ Filters.room_id filters = room_id)
         issued
  /\ (issued = [Filters.make room_id 20 None]
      \/ exists body page,
           get O (first_request room_id) = Resolved body
           /\ SessionList.data body = Some page
           /\ (20 <= List.length page)%nat
           /\ issued
              = [Filters.make room_id 20 None;
                 Filters.make room_id 20
                   match SessionList.last body with
                   | Some (String c cursor) => Some (String c cursor)
                   | _ => None
                   end]).
Proof.
  destruct fuel as [|fuel]; [discriminate|].
  rewrite walk_first.
  assert (one :
    Forall (fun filters => Filters.limit filters = 20 /\ Filters.room_id filters = room_id)
           [first_request room_id]
    /\ ([first_request room_id] = [Filters.make room_id 20 None]
        \/ exists body page,
             get O (first_request room_id) = Resolved body
             /\ SessionList.data body = Some page
             /\ (20 <= List.length page)%nat
             /\ [first_request room_id]
                = [Filters.make room_id 20 None;
                   Filters.make room_id 20
                     match SessionList.last body with
                     | Some (String c cursor) => Some (String c cursor)
                     | _ => None
                     end])).
  { split; [repeat constructor | now left]. }
  destruct (get O (first_request room_id)) as [body|message] eqn:E0.
  - destruct (SessionList.data body) as [[|s page]|] eqn:Ed.
    + intros H. inversion H; subst. exact one.
    + destruct (List.length (s :: page) <? 20)%nat eqn:El.
      * intros H. inversion H; subst. exact one.
      * destruct fuel as [|fuel]; [discriminate|].
        rewrite walk_second. intros H. inversion H; subst. clear H one.
        apply Nat.ltb_ge in El. split.
        -- repeat constructor.
        -- right. exists body, (s :: page).
           split; [reflexivity|]. split; [exact Ed|]. split; [exact El|].
           unfold first_request, next_request, truthy.
           now destruct (SessionList.last body) as [[|c cursor]|].
    + intros H. inversion H; subst. exact one.
  - intros H. inversion H; subst. exact one.
Qed.

(** X10.  The walker is all or nothing on the upstream: when a request it
    issued was rejected, its answer is 500; an answer that is a JSON body
    means that every request it issued was resolved. *)
Theorem walker_fails_with_the_upstream
    (get : nat -> Filters.t -> promise SessionList.t) (room_id : option value)
    (fuel : nat) (issued : list Filters.t) (res : response sessions_var) :
  session_list get room_id fuel = Some (issued, res) ->
  forall i filters message,
    nth_error issued i = Some filters ->
    get i filters = Rejected message ->
    res = internal_error.
Proof.
  destruct fuel as [|fuel]; [discriminate|].
  rewrite walk_first.
  destruct (get O (first_request room_id)) as [body|message0] eqn:E0.
  - destruct (SessionList.data body) as [[|s page]|] eqn:Ed.
    + intros H i filters message Hi Hr. inversion H; subst.
      destruct i as [|[|i]]; simpl in Hi; try discriminate.
      inversion Hi; subst. congruence.
    + destruct (List.length (s :: page) <? 20)%nat eqn:El.
      * intros H i filters message Hi Hr. inversion H; subst.
        destruct i as [|[|i]]; simpl in Hi; try discriminate.
        inversion Hi; subst. congruence.
      * destruct fuel as [|fuel]; [discriminate|].
        rewrite walk_second. intros H i filters message Hi Hr. inversion H; subst.
        destruct i as [|[|[|i]]]; simpl in Hi; try discriminate.
        -- inversion Hi; subst. congruence.
        -- inversion Hi; subst. now rewrite Hr.
    + intros H i filters message Hi Hr. inversion H; subst.
      destruct i as [|[|i]]; simpl in Hi; try discriminate.
      inversion Hi; subst. congruence.
  - intros H. inversion H; subst. reflexivity.
Qed.

(** X11.  The walker never answers with a session: its answer is the empty
    array, the number 1, or 500, whatever the upstream serves. *)
Theorem walker_answers
    (get : nat -> Filters.t -> promise SessionList.t) (room_id : option value)
    (fuel : nat) (issued : list Filters.t) (res : response sessions_var) :
  session_list get room_id fuel = Some (issued, res) ->
  res = Json (Pages []) \/ res = Json (Length 1) \/ res = internal_error.
Proof.
  destruct fuel as [|fuel]; [discriminate|].
  rewrite walk_first.
  destruct (get O (first_request room_id)) as [body|message].
  - destruct (SessionList.data body) as [[|s page]|].
    + intros H. inversion H. now left.
    + destruct (List.length (s :: page) <? 20)%nat.
      * intros H. inversion H. right. now left.
      * destruct fuel as [|fuel]; [discriminate|].
        rewrite walk_second. intros H. inversion H.
        destruct (get 1%nat _) as [body2|message2]; [|right; now right].
        destruct (SessionList.data body2) as [[|s2 page2]|]; auto.
    + intros H. inversion H. now left.
  - intros H. inversion H. right. now right.
Qed.

(** ** Creating a room *)

Lemma obj_get_defined_field (body : obj value) (k0 k : string) :
  obj_get (defined_field body k0) k = if String.eqb k0 k then obj_get body k else None.
Proof.
  unfold defined_field. destruct (String.eqb k0 k) eqn:E.
  - apply String.eqb_eq in E. subst k0.
    destruct (obj_get body k); simpl; [now rewrite String.eqb_refl | reflexivity].
  - destruct (obj_get body k0); simpl; [now rewrite E | reflexivity].
Qed.

Lemma obj_get_remove_same {A : Type} (o : obj A) (k : string) :
  obj_get (obj_remove o k) k = None.
Proof.
  induction o as [|[k' v] o IH]; simpl; [reflexivity|].
  destruct (String.eqb k' k) eqn:E; simpl; [exact IH | now rewrite E].
Qed.

Lemma obj_get_remove_other {A : Type} (o : obj A) (k k0 : string) :
  k0 <> k -> obj_get (obj_remove o k) k0 = obj_get o k0.
Proof.
  intros Hne. induction o as [|[k' v] o IH]; simpl; [reflexivity|].
  destruct (String.eqb k' k) eqn:E; simpl.
  - apply String.eqb_eq in E. subst k'.
    destruct (String.eqb k k0) eqn:E0; [|exact IH].
    apply String.eqb_eq in E0. congruence.
  - now rewrite IH.
Qed.

Lemma created_id_object (roomData : option value) (roomId : value) :
  created_id roomData = Some roomId ->
  exists fields,
    roomData = Some (VObj fields) /\ obj_get fields "id" = Some roomId
    /\ truthy_value roomId = true.
Proof.
  unfold created_id. destruct roomData as [v|]; [|discriminate].
  destruct (truthy_value v); [|discriminate].
  destruct v as [|b|x|t|items|fields]; simpl; try discriminate.
  destruct (obj_get fields "id") as [w|] eqn:Eid; [|discriminate].
  destruct (truthy_value w) eqn:E; [|discriminate].
  intros H. inversion H; subst. now exists fields.
Qed.

(** X12.  The first call of the handler is [POST /rooms], and its payload has
    the [name], [description], [template_id] and [region] of the request
    body, each when the body has it, and nothing else of the body. *)
Theorem create_room_forwards_four_fields
    (post : nat -> string -> obj value -> promise (option value)) (body : obj value) :
  hd_error (fst (create_room post body)) = Some ("/rooms", room_payload body)
  /\ forall k,
       obj_get (room_payload body) k
       = if (String.eqb "name" k || String.eqb "description" k
             || String.eqb "template_id" k || String.eqb "region" k)%bool
         then obj_get body k else None.
Proof.
  split.
  - unfold create_room.
    destruct (post 0%nat "/rooms" (room_payload body)) as [roomData|message];
      [|reflexivity].
    destruct (created_id roomData) as [roomId|]; [|reflexivity].
    destruct (post 1%nat _ []) as [[[ | | | | | ]|]|]; reflexivity.
  - intros k. unfold room_payload.
    rewrite !obj_get_app, !obj_get_defined_field.
    destruct (String.eqb "name" k), (String.eqb "description" k),
      (String.eqb "template_id" k), (String.eqb "region" k);
      simpl; destruct (obj_get body k); reflexivity.
Qed.

(** X13.  The handler asks for room codes only for a room that was created
    with a truthy [id], at [/room-codes/room/<id>] and with an empty payload,
    and makes no third call.  When the creation is rejected it answers 500;
    when the created room is absent, falsy, no object, or has no truthy
    [id], it answers with what the upstream sent, unchanged. *)
Theorem room_codes_are_requested_for_a_created_id
    (post : nat -> string -> obj value -> promise (option value)) (body : obj value) :
  (forall message,
     post 0%nat "/rooms" (room_payload body) = Rejected message ->
     create_room post body = ([("/rooms", room_payload body)], internal_error))
  /\ (forall roomData,
        post 0%nat "/rooms" (room_payload body) = Resolved roomData ->
        created_id roomData = None ->
        create_room post body = ([("/rooms", room_payload body)], Json roomData))
  /\ (forall roomData roomId,
        post 0%nat "/rooms" (room_payload body) = Resolved roomData ->
        created_id roomData = Some roomId ->
        fst (create_room post body)
        = [("/rooms", room_payload body); ("/room-codes/room/" ++ ToString roomId, [])]).
Proof.
  unfold create_room. split; [|split].
  - intros message E. now rewrite E.
  - intros roomData E Hid. now rewrite E, Hid.
  - intros roomData roomId E Hid. rewrite E, Hid.
    destruct (post 1%nat _ []) as [[[ | | | | | ]|]|]; reflexivity.
Qed.

(** X14.  A room that was created is answered even when its codes are not:
    when the call for the room codes is rejected, or resolves with [null] or
    with nothing, the answer is the created room as the upstream sent it,
    with status 200. *)
Theorem room_codes_failure_is_tolerated
    (post : nat -> string -> obj value -> promise (option value)) (body : obj value)
    (roomData : option value) (roomId : value) :
  post 0%nat "/rooms" (room_payload body) = Resolved roomData ->
  created_id roomData = Some roomId ->
  (exists message,
     post 1%nat ("/room-codes/room/" ++ ToString roomId) [] = Rejected message)
  \/ post 1%nat ("/room-codes/room/" ++ ToString roomId) [] = Resolved None
  \/ post 1%nat ("/room-codes/room/" ++ ToString roomId) [] = Resolved (Some VNull) ->
  snd (create_room post body) = Json roomData.
Proof.
  intros E Hid H. unfold create_room. rewrite E, Hid.
  destruct H as [[message H]|[H|H]]; now rewrite H.
Qed.

(** X15.  When the call for the room codes resolves with a value that is not
    [null], the answer is the created room with [room_codes] set to the
    [data] of that value (and without [room_codes] when it has no [data]);
    every other field of the created room is unchanged. *)
Theorem room_codes_are_attached
    (post : nat -> string -> obj value -> promise (option value)) (body : obj value)
    (roomData : option value) (roomId roomCodesResponse : value) :
  post 0%nat "/rooms" (room_payload body) = Resolved roomData ->
  created_id roomData = Some roomId ->
  post 1%nat ("/room-codes/room/" ++ ToString roomId) [] = Resolved (Some roomCodesResponse) ->
  roomCodesResponse <> VNull ->
  exists fields fields',
    roomData = Some (VObj fields)
    /\ snd (create_room post body) = Json (Some (VObj fields'))
    /\ obj_get fields' "room_codes" = prop roomCodesResponse "data"
    /\ forall k, k <> "room_codes" -> obj_get fields' k = obj_get fields k.
Proof.
  intros E Hid E1 Hnn.
  destruct (created_id_object _ _ Hid) as (fields & -> & _ & _).
  exists fields.
  exists (match prop roomCodesResponse "data" with
          | Some v => obj_set fields "room_codes" v
          | None => obj_remove fields "room_codes"
          end).
  split; [reflexivity|]. split; [|split].
  - unfold create_room. rewrite E, Hid, E1.
    destruct roomCodesResponse; try reflexivity. congruence.
  - destruct (prop roomCodesResponse "data") as [v|].
    + apply obj_get_set_same.
    + apply obj_get_remove_same.
  - intros k Hk. destruct (prop roomCodesResponse "data") as [v|].
    + now apply obj_get_set_other.
    + now apply obj_get_remove_other.
Qed.

(** ** Enabling and disabling a room *)

(** X16.  The handler calls the upstream exactly when [enabled] is a boolean
    in the request body: any other body (no [enabled], a string, a number,
    [null]) is answered 400 with no call made.  A boolean is posted once to
    [/rooms/<room_id>] with the payload [{enabled}] alone, and the answer is
    the upstream's: 200 with its body, the status and body of its error
    response, or 500 when the error has no response. *)
Theorem room_active_validates_enabled
    (post : string -> obj value -> outcome (option value))
    (room_id : string) (body : obj value) :
  ((forall enabled, obj_get body "enabled" <> Some (VBool enabled)) ->
   room_active post room_id body = ([], invalid_enabled))
  /\ (forall enabled,
        obj_get body "enabled" = Some (VBool enabled) ->
        fst (room_active post room_id body)
        = [("/rooms/" ++ room_id, [("enabled", VBool enabled)])]
        /\ match post ("/rooms/" ++ room_id) [("enabled", VBool enabled)] with
           | Succeeded updatedRoomData =>
               snd (room_active post room_id body) = make_reply 200 updatedRoomData
           | Failed err =>
               match error_response err with
               | Some (status, data) =>
                   snd (room_active post room_id body) = make_reply status data
               | None =>
                   snd (room_active post room_id body)
                   = make_reply 500
                       (Some (VObj [("message", VStr "Internal Server Error")]))
               end
           end)
  /\ (fst (room_active post room_id body) = []
      <-> forall enabled, obj_get body "enabled" <> Some (VBool enabled)).
Proof.
  unfold room_active.
  destruct (obj_get body "enabled") as [[|b|x|t|items|fields]|] eqn:E;
    try (split; [reflexivity|]; split; [intros enabled H; discriminate|];
         split; [intros _ enabled H; discriminate | reflexivity]).
  split; [intros H; now destruct (H b)|]. split.
  - intros enabled H. inversion H; subst.
    destruct (post _ _) as [updated|err]; [now split|].
    destruct (error_response err) as [[status data]|]; now split.
  - split; [|intros H; now destruct (H b)].
    destruct (post _ _) as [updated|err]; discriminate.
Qed.

(** ** Issuing a token *)

(** X17.  The handler never sends the 500 of its [catch]: when
    [getAuthToken] throws, the [catch] throws a [ReferenceError] on the
    unbound [err] and the exception leaves the handler.  A response is sent
    only with the token [getAuthToken] returned, and every request that gets
    that far has written the management token to the console. *)
Theorem auth_token_never_sends_its_500
    (getManagementToken : call string)
    (getAuthToken : option value -> option value -> option value -> call string)
    (body : obj value) :
  snd (auth_token getManagementToken getAuthToken body) <> Sent internal_error
  /\ (forall managementToken message,
        getManagementToken = Returns managementToken ->
        getAuthToken (obj_get body "room_id") (obj_get body "user_id")
                     (obj_get body "role") = Throws message ->
        auth_token getManagementToken getAuthToken body
        = ([managementToken], Uncaught "ReferenceError: err is not defined"))
  /\ (forall r,
        snd (auth_token getManagementToken getAuthToken body) = Sent r ->
        exists managementToken t,
          getManagementToken = Returns managementToken
          /\ getAuthToken (obj_get body "room_id") (obj_get body "user_id")
                          (obj_get body "role") = Returns t
          /\ fst (auth_token getManagementToken getAuthToken body) = [managementToken]
          /\ r = Json (make_token_body t "Token generated successfully!" true)).
Proof.
  unfold auth_token.
  destruct getManagementToken as [managementToken|message0]; simpl.
  - destruct (getAuthToken _ _ _) as [t|message1]; simpl.
    + split; [discriminate|]. split; [intros m message _ H; discriminate|].
      intros r H. inversion H; subst. now exists managementToken, t.
    + split; [discriminate|]. split.
      * intros m message H _. now inversion H.
      * intros r H. discriminate.
  - split; [discriminate|]. split; [intros m message H; discriminate|].
    intros r H. discriminate.
Qed.

End Backend.

(** ** The examples *)

(** C4 (counterexample).  The peer that left 300 ms before it joined has
    -0.005 minutes, and [duration * 100] is -0.5 exactly.  Half away from
    zero gives -1, that is -0.01; the handler's [Math.round] gives -0, and the
    rounded duration is -0. *)
Lemma negative_tie_rounds_toward_zero :
  num_mul (peer_minutes early_peer) (Z2num 100) = S754_finite true 4503599627370496 (-53)
  /\ roundedDuration early_peer = S754_zero true
  /\ round2_half_away (peer_minutes early_peer) = num_div (Z2num (-1)) (Z2num 100)
  /\ roundedDuration early_peer <> round2_half_away (peer_minutes early_peer).
Proof.
  repeat split; try (vm_compute; reflexivity).
  vm_compute. discriminate.
Qed.

(** C7 (counterexample).  For a session that is still open, whose
    [updated_at] and whose peer's [left_at] are null, the handler answers with
    a JSON body in which both durations are the text [NaN]. *)
Lemma open_session_renders_NaN :
  fst (session_analytics unreached (Resolved (sessions_body [open_session])))
  = Json (Analytics.make [Summary.make (Some (VStr "Ann")) "ann" (Num NaN)] "NaN" "NaN")
  /\ two_decimals "NaN" = false.
Proof. split; vm_compute; reflexivity. Qed.

(** C9 (counterexample).  Of two users ["2"] and ["1"], met in that order, the
    per-user sequence has ["1"] first. *)
Lemma numeral_ids_are_reordered :
  option_map (fun acc => map Summary.user_id (result_of acc))
    (detailsByUser unreached numeral_peers)
  = Some ["1"; "2"]
  /\ first_occurrences (map Peer.user_id numeral_peers) = ["2"; "1"]
  /\ option_map (fun acc => map Summary.user_id (result_of acc))
       (detailsByUser unreached numeral_peers)
     <> Some (first_occurrences (map Peer.user_id numeral_peers)).
Proof.
  repeat split; try (vm_compute; reflexivity).
  vm_compute. discriminate.
Qed.

(** C10 (counterexample).  A room that comes with a field [guest_room_codes]
    leaves with another value in it. *)
Lemma existing_guest_room_codes_is_overwritten :
  list_rooms unreached (Resolved (Some (rooms_body [room_d]))) all_codes
  = Json (Some (RoomList.make
                  (Some [[("id", VStr "room-d"); ("guest_room_codes", VArr [guest_code])]])
                  (RoomList.rest (rooms_body [room_d]))))
  /\ obj_get room_d "guest_room_codes" = Some (VStr "kept")
  /\ obj_get room_d "guest_room_codes"
     <> obj_get [("id", VStr "room-d"); ("guest_room_codes", VArr [guest_code])]
                "guest_room_codes".
Proof.
  repeat split; try (vm_compute; reflexivity).
  vm_compute. discriminate.
Qed.

(** The accumulator inherits.  A user whose user_id is [constructor] reads
    the function [Object] on the first entry, and the request ends in the
    [catch]; peers of the user_id [__proto__] leave no entry, in the list or
    in the total; and a name that has no text, read through the prototype
    under the user_id [name], ends the reduce before a result is logged. *)
Example accumulator_inherits :
  session_analytics unreached (Resolved (sessions_body [constructor_session]))
  = (internal_error,
     [log_session constructor_session;
      log_result [Summary.make (Some (VStr "Eve")) "constructor"
                    (Str "function Object() { [native code] }1")];
      log_error])
  /\ fst (session_analytics unreached (Resolved (sessions_body [proto_session])))
     = Json (Analytics.make [Summary.make (Some (VStr "Ann")) "ann" (Num (Z2num 12))]
               "12.00" "12.00")
  /\ session_analytics unreached (Resolved (sessions_body [nameless_session]))
     = (internal_error, [log_session nameless_session; log_error]).
Proof. repeat split; vm_compute; reflexivity. Qed.

(** C3 at three rooms of which the second one's sub-request fails. *)
Lemma failed_sub_request_witness :
  exists out out',
    list_rooms unreached (Resolved (Some (rooms_body [room_a; room_b; room_c]))) second_fails
    = Json (Some (RoomList.make (Some out)
                    (spread (RoomList.rest (rooms_body [room_a; room_b; room_c])))))
    /\ list_rooms unreached (Resolved (Some (rooms_body [room_a; room_b; room_c]))) all_codes
       = Json (Some (RoomList.make (Some out')
                       (spread (RoomList.rest (rooms_body [room_a; room_b; room_c])))))
    /\ List.length out = 3%nat
    /\ nth_error out 1 = Some (with_error room_b)
    /\ obj_get (with_error room_b) "guest_room_codes" = Some (VArr [])
    /\ obj_get (with_error room_b) "error_fetching_codes"
       = Some (VStr "Failed to retrieve room codes")
    /\ (forall j, j <> 1%nat -> nth_error out j = nth_error out' j).
Proof.
  apply (failed_sub_request_is_isolated unreached
           (rooms_body [room_a; room_b; room_c]) [room_a; room_b; room_c]
           second_fails all_codes 1 room_b "Request failed with status code 503").
  - reflexivity.
  - reflexivity.
  - reflexivity.
  - intros j r Hj _. unfold second_fails.
    destruct (Nat.eqb j 1) eqn:E; [|reflexivity].
    apply Nat.eqb_eq in E. contradiction.
Defined.


(** C7 at a session of 12 minutes with two peers of 12 minutes. *)
Lemma two_decimals_witness :
  fst (session_analytics unreached (Resolved (sessions_body [plain_session])))
  = Json plain_body
  /\ two_decimals (Analytics.session_duration plain_body) = true
  /\ two_decimals (Analytics.total_peer_duration plain_body) = true.
Proof.
  split; [vm_compute; reflexivity|].
  destruct (durations_rendered_with_two_decimals unreached
              (Resolved (sessions_body [plain_session])) plain_body
              (snd (session_analytics unreached (Resolved (sessions_body [plain_session])))))
    as (sessionData & rest & last & peer_map & acc & total
        & E & Ep & Ea & Et & _ & _ & Hs & Ht).
  - vm_compute. reflexivity.
  - injection E as E1 E2 E3. subst sessionData rest last.
    injection Ep as Ep. subst peer_map.
    vm_compute in Ea. injection Ea as Ea. subst acc.
    vm_compute in Et. injection Et as Et. subst total.
    split; [apply Hs | apply Ht]; vm_compute; reflexivity.
Defined.

(** C8 at upstreams with one short page, with a full page and a short one,
    and with no session. *)
Lemma push_result_witness :
  session_list (paged [3%nat]) None 1 = Some ([first_request None], Json (Length 1))
  /\ session_list (paged [20; 5]%nat) None 2
     = Some ([first_request None;
              next_request None (SessionList.make (Some (repeat a_session 20)) (Some "next"))],
             internal_error)
  /\ session_list (paged []) None 1 = Some ([first_request None], Json (Pages []))
  /\ (([] : list (list Session.t)) = [] /\ [first_request None] = [first_request None]
      /\ exists body,
           paged [] O (first_request None) = Resolved body
           /\ (SessionList.data body = None \/ SessionList.data body = Some [])).
Proof.
  split; [|split; [|split]].
  - apply (proj1 (push_result_replaces_the_array (paged [3%nat]) None 0)
             (SessionList.make (Some (repeat a_session 3)) (Some "next"))
             (repeat a_session 3)).
    + reflexivity.
    + reflexivity.
    + simpl. lia.
  - apply (proj1 (proj2 (push_result_replaces_the_array (paged [20; 5]%nat) None 0))
             (SessionList.make (Some (repeat a_session 20)) (Some "next"))
             (repeat a_session 20)
             (SessionList.make (Some (repeat a_session 5)) (Some "next"))
             (repeat a_session 5)).
    + reflexivity.
    + reflexivity.
    + reflexivity.
    + reflexivity.
    + reflexivity.
    + discriminate.
  - apply (proj1 (proj2 (proj2 (push_result_replaces_the_array (paged []) None 0)))
             (SessionList.make None None)).
    + reflexivity.
    + now left.
  - apply (proj2 (proj2 (proj2 (push_result_replaces_the_array (paged []) None 0)))).
    reflexivity.
Defined.

(** C9 at two users whose identifiers are no numerals, and at the peers of
    whom two have the user_id [__proto__]. *)
Lemma user_order_witness :
  (exists acc,
     detailsByUser unreached (Object_values plain_peers) = Some acc
     /\ map Summary.user_id (result_of acc) = ["ann"; "bo"])
  /\ option_map (fun acc => map Summary.user_id (result_of acc))
       (detailsByUser unreached (Object_values proto_peers))
     = Some ["ann"].
Proof.
  split.
  - destruct (proj1 (proj2 (proj2 (user_order_is_enumeration_order unreached
                                     (Object_values plain_peers)))))
      as [_ [acc Hacc]].
    { intros p [<-|[<-|[]]]; discriminate. }
    exists acc. split; [exact Hacc|].
    apply (proj2 (proj1 (user_order_is_enumeration_order unreached
                           (Object_values plain_peers)) acc Hacc)).
    intros p [<-|[<-|[]]]; reflexivity.
  - destruct (detailsByUser unreached (Object_values proto_peers)) as [acc|] eqn:Hacc;
      [|vm_compute in Hacc; discriminate].
    simpl. f_equal.
    apply (proj2 (proj1 (user_order_is_enumeration_order unreached
                           (Object_values proto_peers)) acc Hacc)).
    intros p [<-|[<-|[<-|[]]]]; reflexivity.
Defined.

(** X1 at the session of the reconnected user. *)
Lemma reconnected_user_witness :
  fst (session_analytics unreached
         (Resolved (SessionList.make (Some [reconnect_session]) None)))
  = internal_error
  /\ exists acc,
       detailsByUser unreached (Object_values reconnect_peers) = Some acc
       /\ obj_get (own acc) "user-1"
          = Some (Summary.make (Some (VStr "Ann")) "user-1" (Str "[object Object]2"))
       /\ session_analytics unreached
            (Resolved (SessionList.make (Some [reconnect_session]) None))
          = (internal_error,
             [log_session reconnect_session; log_result (result_of acc); log_error]).
Proof.
  destruct (reconnected_user_fails_the_request unreached reconnect_session [] None
              reconnect_peers
              [Peer.make (Some (VStr "Ann")) "user-1" (Instant 0) (Instant 300300)]
              (Peer.make (Some (VStr "Ann")) "user-1" (Instant 400000) (Instant 520000))
              [] eq_refl eq_refl (or_introl eq_refl))
    as [H500 Hacc].
  { discriminate. }
  split; [exact H500|].
  eexists. split; [vm_compute; reflexivity|].
  split; [vm_compute; reflexivity|].
  apply Hacc. vm_compute. reflexivity.
Defined.

(** X2 at a user with one entry, between the entries of other users. *)
Lemma single_entry_witness :
  exists acc,
    detailsByUser unreached (numeral_peers ++ early_peer :: Object_values plain_peers)
    = Some acc
    /\ obj_get (own acc) "user-2"
       = Some (Summary.make (Some (VStr "Bo")) "user-2" (Num (S754_zero false))).
Proof.
  eexists. split; [vm_compute; reflexivity|].
  apply (single_entry_user_duration unreached numeral_peers early_peer
           (Object_values plain_peers)).
  - reflexivity.
  - now left.
  - simpl. intros [H|[H|[]]]; discriminate.
  - simpl. intros [H|[H|[]]]; discriminate.
  - vm_compute. reflexivity.
Defined.

(** X4 at the session of two users. *)
Lemma distinct_users_witness :
  fst (session_analytics unreached
         (Resolved (SessionList.make (Some [plain_session]) None)))
  = Json (Analytics.make
            (map summary_of (by_user_id (Object_values plain_peers)))
            (toFixed2 unreached (session_minutes plain_session))
            (toFixed2 unreached
               (fold_left num_add
                  (map (fun p => num_add (Z2num 0) (roundedDuration p))
                       (by_user_id (Object_values plain_peers)))
                  (Z2num 0)))).
Proof.
  apply (distinct_users_are_answered unreached plain_session [] None plain_peers eq_refl).
  - vm_compute. constructor; [intros [H|[]]; discriminate|].
    constructor; [intros []|]. constructor.
  - intros p [<-|[<-|[]]]; reflexivity.
Defined.

(** X5 at the peers of whom two have the user_id [__proto__]. *)
Lemma one_summary_witness :
  exists acc,
    detailsByUser unreached (Object_values proto_peers) = Some acc
    /\ NoDup (map Summary.user_id (result_of acc))
    /\ (forall k,
          In k (map Summary.user_id (result_of acc))
          <-> In k (map Peer.user_id (Object_values proto_peers)) /\ k <> "__proto__")
    /\ List.length (result_of acc) = 1%nat.
Proof.
  eexists. split; [vm_compute; reflexivity|].
  apply (one_summary_per_user unreached (Object_values proto_peers)).
  vm_compute. reflexivity.
Defined.

(** X6 at a room whose codes are one of a host and one of a guest. *)
Lemma guest_codes_witness :
  enrich unreached all_codes 0 room_a = with_guest_codes room_a [guest_code]
  /\ obj_get (enrich unreached all_codes 0 room_a) "guest_room_codes"
     = Some (VArr [guest_code])
  /\ obj_get (enrich unreached all_codes 0 room_a) "error_fetching_codes" = None.
Proof.
  apply (proj1 (guest_codes_are_filtered_by_role unreached all_codes 0 room_a
                  [host_code; guest_code] eq_refl) eq_refl).
Defined.

(** X7 at three rooms. *)
Lemma rooms_order_witness :
  exists rooms',
    list_rooms unreached (Resolved (Some (rooms_body [room_a; room_b; room_c]))) second_fails
    = Json (Some (RoomList.make (Some rooms')
                    (spread (RoomList.rest (rooms_body [room_a; room_b; room_c])))))
    /\ List.length rooms' = 3%nat
    /\ map (fun r => obj_get r "id") rooms'
       = [Some (VStr "room-a"); Some (VStr "room-b"); Some (VStr "room-c")]
    /\ (forall j r, nth_error [room_a; room_b; room_c] j = Some r ->
                    nth_error rooms' j = Some (enrich unreached second_fails j r)).
Proof.
  apply (rooms_keep_their_order unreached (rooms_body [room_a; room_b; room_c])
           second_fails room_a [room_b; room_c] eq_refl).
Defined.

(** X9 at a full page followed by a short one. *)
Lemma walker_requests_witness :
  Forall (fun filters => Filters.limit filters = 20%Z /\ Filters.room_id filters = None)
         [Filters.make None 20 None; Filters.make None 20 (Some "next")]
  /\ ([Filters.make None 20 None; Filters.make None 20 (Some "next")]
      = [Filters.make None 20 None]
      \/ exists body page,
           paged [20; 5]%nat O (first_request None) = Resolved body
           /\ SessionList.data body = Some page
           /\ (20 <= List.length page)%nat
           /\ [Filters.make None 20 None; Filters.make None 20 (Some "next")]
              = [Filters.make None 20 None;
                 Filters.make None 20
                   match SessionList.last body with
                   | Some (String c cursor) => Some (String c cursor)
                   | _ => None
                   end]).
Proof.
  apply (walker_requests (paged [20; 5]%nat) None 2
           [Filters.make None 20 None; Filters.make None 20 (Some "next")]
           internal_error eq_refl).
Defined.

(** X10 at an upstream that cannot be reached. *)
Lemma walker_failure_witness :
  session_list unreachable_sessions None 1 = Some ([first_request None], internal_error)
  /\ (internal_error : response sessions_var) = internal_error.
Proof.
  split; [reflexivity|].
  apply (walker_fails_with_the_upstream unreachable_sessions None 1
           [first_request None] internal_error eq_refl
           O (first_request None) "connect ECONNREFUSED" eq_refl eq_refl).
Defined.

(** X11 at a full page followed by a short one: the second push is applied
    to the number the first one left, and the answer is 500. *)
Lemma walker_answers_witness :
  session_list (paged [20; 5]%nat) None 2
  = Some ([Filters.make None 20 None; Filters.make None 20 (Some "next")], internal_error)
  /\ ((internal_error : response sessions_var) = Json (Pages [])
      \/ (internal_error : response sessions_var) = Json (Length 1)
      \/ (internal_error : response sessions_var) = internal_error).
Proof.
  split; [reflexivity|].
  apply (walker_answers (paged [20; 5]%nat) None 2
           [Filters.make None 20 None; Filters.make None 20 (Some "next")]
           internal_error eq_refl).
Defined.

(** X13 at the request that creates the room and its codes. *)
Lemma create_room_calls_witness :
  fst (create_room unreached creating standup_request)
  = [("/rooms", [("name", VStr "Standup"); ("region", VStr "eu")]);
     ("/room-codes/room/room-e", [])].
Proof.
  apply (proj2 (proj2 (room_codes_are_requested_for_a_created_id unreached creating
                         standup_request))
           (Some (VObj created_room)) (VStr "room-e") eq_refl eq_refl).
Defined.

(** X14 at the upstream that fails on the codes. *)
Lemma room_codes_failure_witness :
  snd (create_room unreached creating_without_codes standup_request)
  = Json (Some (VObj created_room)).
Proof.
  apply (room_codes_failure_is_tolerated unreached creating_without_codes standup_request
           (Some (VObj created_room)) (VStr "room-e") eq_refl eq_refl).
  left. exists "Request failed with status code 500". reflexivity.
Defined.

(** X15 at the upstream that creates the room and its codes. *)
Lemma room_codes_attached_witness :
  exists fields fields',
    Some (VObj created_room) = Some (VObj fields)
    /\ snd (create_room unreached creating standup_request) = Json (Some (VObj fields'))
    /\ obj_get fields' "room_codes" = Some (VArr [host_code; guest_code])
    /\ forall k, k <> "room_codes" -> obj_get fields' k = obj_get fields k.
Proof.
  apply (room_codes_are_attached unreached creating standup_request
           (Some (VObj created_room)) (VStr "room-e")
           (VObj [("data", VArr [host_code; guest_code])]) eq_refl eq_refl eq_refl).
  discriminate.
Defined.

(** X16 at a request whose [enabled] is a text, and at one the upstream
    refuses. *)
Lemma room_active_witness :
  room_active refusing "room-e" disable_text_request = ([], invalid_enabled)
  /\ fst (room_active refusing "room-e" disable_request)
     = [("/rooms/room-e", [("enabled", VBool false)])]
  /\ snd (room_active refusing "room-e" disable_request)
     = make_reply 404 (Some (VObj [("message", VStr "room not found")])).
Proof.
  split.
  - apply (proj1 (room_active_validates_enabled refusing "room-e" disable_text_request)).
    intros enabled H. discriminate.
  - apply (proj1 (proj2 (room_active_validates_enabled refusing "room-e" disable_request))
             false eq_refl).
Defined.

(** X17 at a token service that cannot sign. *)
Lemma auth_token_witness :
  auth_token (Returns "management-token") no_secret
    [("room_id", VStr "room-e"); ("user_id", VStr "ann"); ("role", VStr "guest")]
  = (["management-token"], Uncaught "ReferenceError: err is not defined").
Proof.
  apply (proj1 (proj2 (auth_token_never_sends_its_500 (Returns "management-token") no_secret
                         [("room_id", VStr "room-e"); ("user_id", VStr "ann");
                          ("role", VStr "guest")]))
           "management-token" "secretOrPrivateKey must have a value" eq_refl eq_refl).
Defined.
